(** * The ClickHouse driver of sqlboiler: schema introspection and type mapping

    A shallow embedding of [bdb/drivers/clickhouse.go]: the connection-string
    builder, the three catalog operations, the engine-string parser and the
    type translator, with the connection of the test harness and the
    FixedString type, followed by the properties checked against them.

    Conventions of the embedding:
    - a Go [string] is a Rocq [string]: a sequence of 8-bit bytes ([ascii]);
    - a Go [int] is a [Z]; indices returned by [strings.Index] keep the
      sentinel [-1];
    - a Go result pair [(v, err)] is a [result]: [Err e] for [(nil, e)] and
      [Ok v] for [(v, nil)]; where [(nil, nil)] is also returned the value
      is an [option];
    - the package-level variables are the fields of the record [Globals],
      passed explicitly to the one function that reads them;
    - the database handle is a record holding the query function the driver
      calls on it. *)

From Stdlib Require Import ZArith String Ascii List Bool Lia DecimalString.
From stdpp Require Import base decidable option list gmap strings sorting.

Import ListNotations.
Local Open Scope Z_scope.
Local Open Scope string_scope.

(* ===================================================================== *)
(** * Package-level state and the types of package [bdb] *)
(* ===================================================================== *)

(** Modelled from the spec: [bdb.Column] is declared in package [bdb], which
    the driver imports; only the fields the driver reads or writes are kept
    (name, raw catalog type, normalized base type, default expression,
    translated type). The Go field [Type] is spelled [Type_] here. *)
Record Column := mkColumn {
  Name : string;
  Type_ : string;
  DBType : string;
  FullDBType : string;
  Default : string
}.

(** Modelled from the spec: [bdb.PrimaryKey], a key name and the ordered
    list of its column names. *)
Record PrimaryKey := mkPrimaryKey {
  pkName : string;
  pkColumns : list string
}.

(** The package-level variables of package [drivers] that the ClickHouse
    driver declares or reads. [UInt8AsBool] is declared in clickhouse.go;
    [TinyintAsBool] is the sibling flag of the MySQL driver in the same
    package (declared in mysql.go), and is the one [TranslateColumnType]
    reads. *)
Record Globals := mkGlobals {
  UInt8AsBool : bool;
  TinyintAsBool : bool
}.

Definition set_UInt8AsBool (b : bool) (g : Globals) : Globals :=
  {| UInt8AsBool := b; TinyintAsBool := TinyintAsBool g |}.

(* ===================================================================== *)
(** * Type translation *)
(* ===================================================================== *)

(** [c.Type = t] on the by-value receiver copy. *)
Definition setType (c : Column) (t : string) : Column :=
  {| Name := Name c; Type_ := t; DBType := DBType c;
     FullDBType := FullDBType c; Default := Default c |}.

(** [func (m *ClickhouseDriver) TranslateColumnType(c bdb.Column) bdb.Column] *)
Definition TranslateColumnType (g : Globals) (c : Column) : Column :=
  let t := DBType c in
  if t =? "UInt8" then
    if TinyintAsBool g then setType c "bool" else setType c "uint8"
  else if t =? "UInt16" then setType c "uint16"
  else if t =? "UInt32" then setType c "uint32"
  else if t =? "UInt64" then setType c "uint64"
  else if t =? "Int8" then setType c "int8"
  else if t =? "Int16" then setType c "int16"
  else if t =? "Int32" then setType c "int32"
  else if t =? "Int64" then setType c "int64"
  else if t =? "Float32" then setType c "float32"
  else if t =? "Float64" then setType c "float64"
  else if (t =? "Date") || (t =? "DateTime") then setType c "time.Time"
  else if t =? "FixedString" then setType c "types.FixedString"
  else if t =? "String" then setType c "string"
  else setType c "[]byte".

(** The case labels of the [switch] in [TranslateColumnType]. *)
Definition recognizedTypes : list string :=
  ["UInt8"; "UInt16"; "UInt32"; "UInt64"; "Int8"; "Int16"; "Int32"; "Int64";
   "Float32"; "Float64"; "Date"; "DateTime"; "FixedString"; "String"].

Definition recognized (t : string) : bool :=
  existsb (String.eqb t) recognizedTypes.

(* ===================================================================== *)
(** * The Go library functions the driver calls *)
(* ===================================================================== *)

(** ** Package [strings]

    The driver passes one-byte separators (["("], [","]) to [Index],
    [LastIndex] and [Split], and ASCII cutsets (["() "], [", "]) to [Trim]
    and [TrimLeft]; the functions are modelled on bytes, which is what Go
    computes for such arguments. *)
Module Strings.

Definition len (s : string) : Z := Z.of_nat (String.length s).

Fixpoint dropBytes (n : nat) (s : string) : string :=
  match n, s with
  | O, _ => s
  | S _, "" => ""
  | S n', String _ s' => dropBytes n' s'
  end.

Fixpoint takeBytes (n : nat) (s : string) : string :=
  match n, s with
  | O, _ => ""
  | S _, "" => ""
  | S n', String a s' => String a (takeBytes n' s')
  end.

(** [s[i:]] and [s[:i]]. Go panics when [i] is outside [0 .. len s]; every
    index the driver slices with comes from [Index] or [LastIndex] on the
    same string after the [-1] test, or is [1] on a string of two bytes or
    more, so it is in range (lemmas [Index_range], [LastIndex_range]). *)
Definition sliceFrom (s : string) (i : Z) : string := dropBytes (Z.to_nat i) s.
Definition sliceTo (s : string) (i : Z) : string := takeBytes (Z.to_nat i) s.

(** [strings.Index(s, sep)] for a one-byte [sep]. *)
Fixpoint Index (s : string) (sep : ascii) : Z :=
  match s with
  | "" => -1
  | String a s' =>
      if Ascii.eqb a sep then 0
      else let i := Index s' sep in if (i <? 0)%Z then -1 else i + 1
  end.

(** [strings.LastIndex(s, sep)] for a one-byte [sep]. *)
Fixpoint LastIndex (s : string) (sep : ascii) : Z :=
  match s with
  | "" => -1
  | String a s' =>
      let i := LastIndex s' sep in
      if (0 <=? i)%Z then i + 1
      else if Ascii.eqb a sep then 0 else -1
  end.

Fixpoint inCutset (c : ascii) (cutset : string) : bool :=
  match cutset with
  | "" => false
  | String a cutset' => Ascii.eqb c a || inCutset c cutset'
  end.

Fixpoint TrimLeft (s cutset : string) : string :=
  match s with
  | "" => ""
  | String a s' => if inCutset a cutset then TrimLeft s' cutset else s
  end.

Fixpoint TrimRight (s cutset : string) : string :=
  match s with
  | "" => ""
  | String a s' =>
      match TrimRight s' cutset with
      | "" => if inCutset a cutset then "" else String a ""
      | r => String a r
      end
  end.

Definition Trim (s cutset : string) : string :=
  TrimRight (TrimLeft s cutset) cutset.

(** [strings.Split(s, sep)] for a one-byte [sep]: the fields between the
    separators, one more than there are separators. *)
Fixpoint Split (s : string) (sep : ascii) : list string :=
  match s with
  | "" => [""]
  | String a s' =>
      if Ascii.eqb a sep then "" :: Split s' sep
      else match Split s' sep with
           | h :: t => String a h :: t
           | [] => [String a ""]
           end
  end.

Fixpoint Repeat (s : string) (count : nat) : string :=
  match count with
  | O => ""
  | S n => s +:+ Repeat s n
  end.

Fixpoint Join (elems : list string) (sep : string) : string :=
  match elems with
  | [] => ""
  | [e] => e
  | e :: rest => e +:+ sep +:+ Join rest sep
  end.

Fixpoint revString (acc s : string) : string :=
  match s with
  | "" => acc
  | String a s' => revString (String a acc) s'
  end.

Definition byte (a : ascii) : N := N_of_ascii a.

(** The white space of [unicode.IsSpace], in UTF-8: the six ASCII
    characters, U+0085 and U+00A0 (two bytes), and U+1680, U+2000 to
    U+200A, U+2028, U+2029, U+202F, U+205F, U+3000 (three bytes). *)
Definition isSpace1 (a : ascii) : bool :=
  let n := byte a in ((9 <=? n) && (n <=? 13) || (n =? 32))%N.

Definition isSpace2 (a b : ascii) : bool :=
  ((byte a =? 194) && ((byte b =? 133) || (byte b =? 160)))%N.

Definition isSpace3 (a b c : ascii) : bool :=
  let '(x, y, z) := (byte a, byte b, byte c) in
  ((x =? 225) && (y =? 154) && (z =? 128)
   || (x =? 226) && (y =? 128) &&
      ((128 <=? z) && (z <=? 138) || (z =? 168) || (z =? 169) || (z =? 175))
   || (x =? 226) && (y =? 129) && (z =? 159)
   || (x =? 227) && (y =? 128) && (z =? 128))%N.

Fixpoint trimLeftSpace (s : string) : string :=
  match s with
  | "" => ""
  | String a r1 =>
      if isSpace1 a then trimLeftSpace r1
      else match r1 with
           | "" => s
           | String b r2 =>
               if isSpace2 a b then trimLeftSpace r2
               else match r2 with
                    | "" => s
                    | String c r3 =>
                        if isSpace3 a b c then trimLeftSpace r3 else s
                    end
           end
  end.

(** Trailing white space, on the reversed string: the last rune is read
    from its last byte backwards. *)
Fixpoint trimLeftSpaceRev (s : string) : string :=
  match s with
  | "" => ""
  | String c r1 =>
      if isSpace1 c then trimLeftSpaceRev r1
      else match r1 with
           | "" => s
           | String b r2 =>
               if isSpace2 b c then trimLeftSpaceRev r2
               else match r2 with
                    | "" => s
                    | String a r3 =>
                        if isSpace3 a b c then trimLeftSpaceRev r3 else s
                    end
           end
  end.

Definition TrimSpace (s : string) : string :=
  revString "" (trimLeftSpaceRev (revString "" (trimLeftSpace s))).

End Strings.

(** ** Errors

    The error values the driver creates, wraps or passes on. *)
Inductive numErrKind := ErrSyntax | ErrRange.

Inductive error : Type :=
| ErrNoRows                                        (* sql.ErrNoRows *)
| ErrorString (msg : string)                       (* errors.New(msg) *)
| Wrapped (cause : error) (msg : string)           (* errors.Wrap(cause, msg) *)
| NumError (fn num : string) (kind : numErrKind)   (* *strconv.NumError *)
| DriverError (msg : string).                      (* raised by database/sql *)

Inductive result (A : Type) : Type :=
| Ok (v : A)
| Err (e : error).
Arguments Ok {A} v.
Arguments Err {A} e.

(** [err == sql.ErrNoRows] *)
Definition isErrNoRows (e : error) : bool :=
  match e with ErrNoRows => true | _ => false end.

(** ** Package [strconv], for a 64-bit [int] *)
Module Strconv.

Definition FormatBool (b : bool) : string := if b then "true" else "false".

Definition Itoa (i : Z) : string := NilZero.string_of_int (Z.to_int i).

Definition maxUint64 : Z := 2 ^ 64 - 1.

(** The digit loop of [ParseUint(s, 10, 64)]: a byte that is no digit is a
    syntax error, a value past [maxUint64] a range error, whichever comes
    first. *)
Fixpoint parseUintLoop (s : string) (n : Z) : Z * option numErrKind :=
  match s with
  | "" => (n, None)
  | String c s' =>
      let d := (Z.of_N (N_of_ascii c) - 48)%Z in
      if ((d <? 0) || (9 <? d))%Z then (0, Some ErrSyntax)
      else if (maxUint64 / 10 + 1 <=? n)%Z then (maxUint64, Some ErrRange)
      else let n1 := (n * 10 + d)%Z in
           if (maxUint64 <? n1)%Z then (maxUint64, Some ErrRange)
           else parseUintLoop s' n1
  end.

Definition ParseUint (s : string) : Z * option numErrKind :=
  match s with
  | "" => (0, Some ErrSyntax)
  | _ => parseUintLoop s 0
  end.

(** [ParseInt(s, 10, 0)] *)
Definition ParseInt (s : string) : Z * option numErrKind :=
  match s with
  | "" => (0, Some ErrSyntax)
  | String c s' =>
      let neg := Ascii.eqb c "-" in
      let digits := if Ascii.eqb c "+" || neg then s' else s in
      match ParseUint digits with
      | (_, Some ErrSyntax) => (0, Some ErrSyntax)
      | (un, _) =>
          let cutoff := (2 ^ 63)%Z in
          if negb neg && (cutoff <=? un)%Z then (cutoff - 1, Some ErrRange)
          else if neg && (cutoff <? un)%Z then (- cutoff, Some ErrRange)
          else (if neg then - un else un, None)
      end
  end.

(** [strconv.Atoi]: [ParseInt(s, 10, 0)] with the error renamed. The
    number Go returns next to an error is dropped. *)
Definition Atoi (s : string) : result Z :=
  match ParseInt s with
  | (_, Some k) => Err (NumError "Atoi" s k)
  | (n, None) => Ok n
  end.

End Strconv.

(** ** Package [net/url] *)
Module Url.

Inductive encoding := encodeHost | encodeQueryComponent.

(** The double-quote character. *)
Definition dquote : ascii := ascii_of_nat 34.

Definition isAlnum (c : ascii) : bool :=
  let n := N_of_ascii c in
  ((97 <=? n) && (n <=? 122) || (65 <=? n) && (n <=? 90)
   || (48 <=? n) && (n <=? 57))%N.

(** [shouldEscape(c, mode)] for the two modes the builder reaches. *)
Definition shouldEscape (c : ascii) (mode : encoding) : bool :=
  if isAlnum c then false
  else if match mode with
          | encodeHost => Strings.inCutset c "!$&'()*+,;=:[]<>" || Ascii.eqb c dquote
          | encodeQueryComponent => false
          end then false
  else if Strings.inCutset c "-_.~" then false
  else true.

Definition upperhex (n : N) : ascii :=
  match String.get (N.to_nat n) "0123456789ABCDEF" with
  | Some c => c
  | None => "0"%char
  end.

Fixpoint escape (s : string) (mode : encoding) : string :=
  match s with
  | "" => ""
  | String c s' =>
      let rest := escape s' mode in
      if Ascii.eqb c " " &&
         match mode with encodeQueryComponent => true | _ => false end
      then String "+" rest
      else if shouldEscape c mode then
        let n := N_of_ascii c in
        String "%" (String (upperhex (N.shiftr n 4))
                      (String (upperhex (N.land n 15)) rest))
      else String c rest
  end.

Definition QueryEscape (s : string) : string := escape s encodeQueryComponent.

(** [url.Values], a [map[string][]string]. *)
Abbreviation Values := (gmap string (list string)).

(** [v.Set(key, value)]: [v[key] = []string{value}] *)
Definition Set_ (v : Values) (key value : string) : Values :=
  <[key := [value]]> v.

(** [sort.Strings]: increasing byte-wise order. *)
Definition strLe (a b : string) : Prop := Is_true (String.leb a b).

Definition sortedKeys (v : Values) : list string :=
  merge_sort strLe (map_to_list v).*1.

(** [v.Encode()]: the keys in sorted order, each value written as
    [key=value], both escaped, with ['&'] before every pair but the first
    one written. *)
Definition Encode (v : Values) : string :=
  fold_left
    (fun buf k =>
       let vs := default [] (v !! k) in
       let keyEscaped := QueryEscape k in
       fold_left
         (fun buf value =>
            (if (0 <? Strings.len buf)%Z then buf +:+ "&" else buf)
              +:+ keyEscaped +:+ "=" +:+ QueryEscape value)
         vs buf)
    (sortedKeys v) "".

(** The [key=value] pairs [Encode] writes for the keys [keys], in order. *)
Definition pairsOf (v : Values) (keys : list string) : list string :=
  flat_map
    (fun k =>
       map (fun value => QueryEscape k +:+ "=" +:+ QueryEscape value)
           (default [] (v !! k)))
    keys.

(** The fields of [url.URL] the builder sets; the others keep their zero
    value. *)
Record URL := mkURL {
  Scheme : string;
  Host : string;
  RawQuery : string
}.

(** [u.String()] with [Opaque], [User], [Path] and [Fragment] empty and
    [ForceQuery] false. *)
Definition URL_String (u : URL) : string :=
  let buf := if negb (Scheme u =? "") then Scheme u +:+ ":" else "" in
  let buf :=
    if negb (Scheme u =? "") || negb (Host u =? "") then
      let buf := if negb (Host u =? "") then buf +:+ "//" else buf in
      if negb (Host u =? "") then buf +:+ escape (Host u) encodeHost else buf
    else buf in
  if negb (RawQuery u =? "") then buf +:+ "?" +:+ RawQuery u else buf.

End Url.

(* ===================================================================== *)
(** * The connection-string builder *)
(* ===================================================================== *)

(** [type ClickhouseDriverConfig struct] *)
Record ClickhouseDriverConfig := mkConfig {
  Username : string;
  Password : string;
  Database : string;
  Host : string;
  Port : Z;
  ReadTimeout : Z;
  WriteTimeout : Z;
  Nagle : bool;
  AltHosts : list string;
  ConnectionOpenStrategy : string;
  BlockSize : Z;
  Debug : bool;
  Secure : bool;
  SkipVerify : bool
}.

(** The [url.Values] that [ClickhouseBuildQueryString] fills, statement by
    statement. *)
Definition queryValues (config : ClickhouseDriverConfig) : Url.Values :=
  let q : Url.Values := ∅ in
  let q := if negb (Username config =? "")
           then Url.Set_ q "username" (Username config) else q in
  let q := if negb (Password config =? "")
           then Url.Set_ q "password" (Password config) else q in
  let q := Url.Set_ q "database" (Database config) in
  let q := if negb (ReadTimeout config =? 0)%Z
           then Url.Set_ q "read_timeout" (Strconv.Itoa (ReadTimeout config))
           else q in
  let q := if negb (WriteTimeout config =? 0)%Z
           then Url.Set_ q "write_timeout" (Strconv.Itoa (WriteTimeout config))
           else q in
  let q := Url.Set_ q "no_delay" (Strconv.FormatBool (negb (Nagle config))) in
  let q := if (0 <? Z.of_nat (length (AltHosts config)))%Z
           then Url.Set_ q "alt_hosts" (Strings.Join (AltHosts config) ",")
           else q in
  let q := if negb (ConnectionOpenStrategy config =? "")
           then Url.Set_ q "connection_open_strategy"
                  (ConnectionOpenStrategy config)
           else q in
  let q := if (0 <? BlockSize config)%Z
           then Url.Set_ q "block_size" (Strconv.Itoa (BlockSize config))
           else q in
  Url.Set_ q "debug" (Strconv.FormatBool (Debug config)).

(** [func ClickhouseBuildQueryString(config ClickhouseDriverConfig) string] *)
Definition ClickhouseBuildQueryString (config : ClickhouseDriverConfig) : string :=
  let dsn := {| Url.Scheme := "tcp";
                Url.Host := Host config +:+ ":" +:+ Strconv.Itoa (Port config);
                Url.RawQuery := Url.Encode (queryValues config) |} in
  Url.URL_String dsn.

(* ===================================================================== *)
(** * The database handle *)
(* ===================================================================== *)

(** A result row: one cell per selected column, [None] for SQL NULL. *)
Definition Row := list (option string).

(** [*sql.Rows]: the rows the iteration delivers, and the error that ended
    it early, if any ([rows.Err()]). *)
Record Rows := mkRows {
  rowsData : list Row;
  rowsErr : option error
}.

(** [*sql.DB]: what [Query(query, args...)] answers. [QueryRow] is built on
    it, as in [database/sql]. *)
Record DB := mkDB {
  Query : string -> list string -> result Rows
}.

(** [*sql.Row] *)
Record SqlRow := mkSqlRow {
  rowErr : option error;
  rowRows : Rows
}.

Definition QueryRow (db : DB) (query : string) (args : list string) : SqlRow :=
  match Query db query args with
  | Err e => {| rowErr := Some e; rowRows := mkRows [] None |}
  | Ok rows => {| rowErr := None; rowRows := rows |}
  end.

(** Scanning a cell into a [*string] destination. *)
Definition scanCell (c : option string) : result string :=
  match c with
  | Some s => Ok s
  | None => Err (DriverError "converting NULL to string is unsupported")
  end.

Definition wrongArity : error :=
  DriverError "sql: wrong number of destination arguments in Scan".

(** [rows.Scan(&a)], [rows.Scan(&a, &b)], [rows.Scan(&a, &b, &c)] *)
Definition Scan1 (r : Row) : result string :=
  match r with
  | [a] => scanCell a
  | _ => Err wrongArity
  end.

Definition Scan2 (r : Row) : result (string * string) :=
  match r with
  | [a; b] =>
      match scanCell a with
      | Err e => Err e
      | Ok x => match scanCell b with Err e => Err e | Ok y => Ok (x, y) end
      end
  | _ => Err wrongArity
  end.

Definition Scan3 (r : Row) : result (string * string * string) :=
  match r with
  | [a; b; c] =>
      match scanCell a with
      | Err e => Err e
      | Ok x =>
          match scanCell b with
          | Err e => Err e
          | Ok y => match scanCell c with Err e => Err e | Ok z => Ok (x, y, z) end
          end
      end
  | _ => Err wrongArity
  end.

(** [row.Scan(&a, &b)] on a [*sql.Row]: the query's error, else
    [sql.ErrNoRows] when there is no first row, else the scan of that row. *)
Definition RowScan2 (r : SqlRow) : result (string * string) :=
  match rowErr r with
  | Some e => Err e
  | None =>
      match rowsData (rowRows r) with
      | [] => match rowsErr (rowRows r) with
              | Some e => Err e
              | None => Err ErrNoRows
              end
      | first :: _ => Scan2 first
      end
  end.

(* ===================================================================== *)
(** * The catalog operations *)
(* ===================================================================== *)

(** The query text and the arguments [TableNames] passes to [Query]. *)
Definition tableNamesQuery (database : string) (whitelist blacklist : list string)
  : string * list string :=
  let query :=
    "select name from system.tables where database = ? and database <> 'system'" in
  let args := [database] in
  if (0 <? Z.of_nat (length whitelist))%Z then
    (query +:+ " and name in ("
       +:+ Strings.sliceFrom (Strings.Repeat ",?" (length whitelist)) 1 +:+ ");",
     fold_left (fun args w => (args ++ [w])%list) whitelist args)
  else if (0 <? Z.of_nat (length blacklist))%Z then
    (query +:+ " and name not in ("
       +:+ Strings.sliceFrom (Strings.Repeat ",?" (length blacklist)) 1 +:+ ");",
     fold_left (fun args b => (args ++ [b])%list) blacklist args)
  else (query, args).

(** The [for rows.Next()] loop of [TableNames]. *)
Fixpoint scanNames (rows : list Row) (names : list string) : result (list string) :=
  match rows with
  | [] => Ok names
  | r :: rest =>
      match Scan1 r with
      | Err err => Err err
      | Ok name => scanNames rest (names ++ [name])%list
      end
  end.

(** [func (m *ClickhouseDriver) TableNames(database string, whitelist, blacklist []string) ([]string, error)] *)
Definition TableNames (db : DB) (database : string) (whitelist blacklist : list string)
  : result (list string) :=
  let '(query, args) := tableNamesQuery database whitelist blacklist in
  match Query db query args with
  | Err err => Err err
  | Ok rows => scanNames (rowsData rows) []
  end.

(** The normalization of the raw type in the loop of [Columns]:
    [colType := fullColType; idx := strings.Index(fullColType, "(")]
    [if idx > 0 { colType = fullColType[:idx] }] *)
Definition normalizeType (fullColType : string) : string :=
  let colType := fullColType in
  let idx := Strings.Index fullColType "(" in
  if (0 <? idx)%Z then Strings.sliceTo fullColType idx else colType.

(** The [for rows.Next()] loop of [Columns]. *)
Fixpoint scanColumns (tableName : string) (rows : list Row) (columns : list Column)
  : result (list Column) :=
  match rows with
  | [] => Ok columns
  | r :: rest =>
      match Scan3 r with
      | Err err => Err (Wrapped err ("unable to scan for table " +:+ tableName))
      | Ok (colName, fullColType, defaultValue) =>
          let column := {| Name := colName;
                           Type_ := "";
                           DBType := normalizeType fullColType;
                           FullDBType := fullColType;
                           Default := defaultValue |} in
          scanColumns tableName rest (columns ++ [column])%list
      end
  end.

Definition tab : string := String (ascii_of_nat 9) "".
Definition nl : string := String (ascii_of_nat 10) "".

Definition columnsQuery : string :=
  nl +:+ tab +:+ "select name, type, default_expression"
     +:+ nl +:+ tab +:+ tab +:+ "from system.columns"
     +:+ nl +:+ tab +:+ "where table = ? and database = ?;"
     +:+ nl +:+ tab.

(** [func (m *ClickhouseDriver) Columns(database, tableName string) ([]bdb.Column, error)] *)
Definition Columns (db : DB) (database tableName : string) : result (list Column) :=
  match Query db columnsQuery [tableName; database] with
  | Err err => Err err
  | Ok rows => scanColumns tableName (rowsData rows) []
  end.

(* ===================================================================== *)
(** * The engine-string parser and the primary-key lookup *)
(* ===================================================================== *)

(** [type clickhouseEngine struct]; the Go fields [Name] and [PrimaryKey]
    are spelled [engineName] and [enginePrimaryKey] here. *)
Record clickhouseEngine := mkEngine {
  engineName : string;
  PartitioningKey : string;
  enginePrimaryKey : list string;
  Granularity : Z
}.

(** [func (m *ClickhouseDriver) parseEngine(str string)], returning a
    [*clickhouseEngine] and an [error]. *)
Definition parseEngine (str : string) : result clickhouseEngine :=
  let idx := Strings.Index str "(" in
  if (idx =? -1)%Z then Err (ErrorString "open bracket not found") else
  let name := Strings.sliceTo str idx in
  let params := Strings.Trim (Strings.sliceFrom str idx) "() " in
  let idx := Strings.Index params "," in
  if (idx =? -1)%Z then Err (ErrorString "partitioning key not found") else
  let partitioningKey := Strings.sliceTo params idx in
  let params := Strings.TrimLeft (Strings.sliceFrom params idx) ", " in
  let idx := Strings.LastIndex params "," in
  if (idx =? -1)%Z then Err (ErrorString "granularity key not found") else
  match Strconv.Atoi (Strings.Trim (Strings.sliceFrom params idx) ", ") with
  | Err err => Err (Wrapped err "parsing granularity failed")
  | Ok granularity =>
      let primary := Strings.Trim (Strings.sliceTo params idx) "() " in
      let primaryKey := map Strings.TrimSpace (Strings.Split primary ",") in
      Ok {| engineName := name;
            PartitioningKey := partitioningKey;
            enginePrimaryKey := primaryKey;
            Granularity := granularity |}
  end.

Definition primaryKeyQuery : string :=
  nl +:+ tab +:+ "select name, engine_full"
     +:+ nl +:+ tab +:+ "from system.tables"
     +:+ nl +:+ tab +:+ "where name = ? and database = ?;".

(** [func (m *ClickhouseDriver) PrimaryKeyInfo(database, table string)],
    returning a [*bdb.PrimaryKey] and an [error]; [Ok None] is the pair
    [(nil, nil)]. *)
Definition PrimaryKeyInfo (db : DB) (database table : string)
  : result (option PrimaryKey) :=
  match RowScan2 (QueryRow db primaryKeyQuery [table; database]) with
  | Err err => if isErrNoRows err then Ok None else Err err
  | Ok (name, engineFull) =>
      match parseEngine engineFull with
      | Err err => Err (Wrapped err ("bad engine=`" +:+ engineFull +:+ "`"))
      | Ok engine =>
          Ok (Some {| pkName := name; pkColumns := enginePrimaryKey engine |})
      end
  end.

(** ** The parts of an engine string the parser looks at *)

(** The text from the first ['('] on, trimmed of parentheses and spaces:
    the value of [params] after [strings.Trim(str[idx:], "() ")]. [None]
    when [str] has no ['(']. *)
Definition engineBody (str : string) : option string :=
  let idx := Strings.Index str "(" in
  if (idx =? -1)%Z then None
  else Some (Strings.Trim (Strings.sliceFrom str idx) "() ").

(** The text after the last [','] of [body], trimmed of spaces. [None] when
    [body] has no [',']. *)
Definition trailingField (body : string) : option string :=
  let idx := Strings.LastIndex body "," in
  if (idx =? -1)%Z then None
  else Some (Strings.Trim (Strings.sliceFrom body (idx + 1)) " ").

(** The written form of a base-10 integer: an optional sign, then one or
    more decimal digits. *)
Definition isDigit (c : ascii) : bool :=
  let n := N_of_ascii c in ((48 <=? n) && (n <=? 57))%N.

Fixpoint allDigits (s : string) : bool :=
  match s with
  | "" => true
  | String c s' => isDigit c && allDigits s'
  end.

Definition unsignedDigits (s : string) : bool :=
  match s with
  | "" => false
  | _ => allDigits s
  end.

Definition isBase10Integer (s : string) : bool :=
  match s with
  | "" => false
  | String c s' =>
      if Ascii.eqb c "+" || Ascii.eqb c "-" then unsignedDigits s'
      else unsignedDigits s
  end.

Definition isErr {A : Type} (r : result A) : bool :=
  match r with Err _ => true | Ok _ => false end.

(** The three malformed shapes: no ['('] at all; a body without [','];
    a trailing field that is not the written form of a base-10 integer, or
    that [strconv.Atoi] rejects all the same (a number too large for an
    [int]). *)
Definition noOpenBracket (str : string) : bool :=
  (Strings.Index str "(" =? -1)%Z.

Definition bodyWithoutComma (str : string) : bool :=
  match engineBody str with
  | Some body => (Strings.Index body "," =? -1)%Z
  | None => false
  end.

Definition trailingFieldNotInteger (str : string) : bool :=
  match engineBody str with
  | Some body =>
      match trailingField body with
      | Some field => negb (isBase10Integer field) || isErr (Strconv.Atoi field)
      | None => false
      end
  | None => false
  end.

(** The raw type as the data-model invariant words it: the text before the
    first ['('], or all of it when there is none. *)
Fixpoint truncateAtParen (raw : string) : string :=
  match raw with
  | "" => ""
  | String a raw' =>
      if Ascii.eqb a "(" then "" else String a (truncateAtParen raw')
  end.

Definition startsWithParen (raw : string) : bool :=
  match raw with
  | String a _ => Ascii.eqb a "("
  | "" => false
  end.

(** A catalog with no rows at all: every query answers an empty row set. *)
Definition emptyCatalog : DB :=
  {| Query := fun _ _ => Ok (mkRows [] None) |}.

(** A catalog whose column listing has one row, of the given raw type. *)
Definition oneColumnCatalog (colName rawType : string) : DB :=
  {| Query := fun _ _ => Ok (mkRows [[Some colName; Some rawType; Some ""]] None) |}.

(* ===================================================================== *)
(** * The remaining methods of the driver *)
(* ===================================================================== *)

(** [type ClickhouseDriver struct]: the connection string and the handle,
    [None] ([nil]) until [Open] has succeeded. *)
Record ClickhouseDriver := mkDriver {
  connStr : string;
  dbConn : option DB
}.

(** [func NewClickhouseDriver(config ClickhouseDriverConfig) *ClickhouseDriver] *)
Definition NewClickhouseDriver (config : ClickhouseDriverConfig) : ClickhouseDriver :=
  {| connStr := ClickhouseBuildQueryString config; dbConn := None |}.

(** [func (m *ClickhouseDriver) Open() error]; [sqlOpen] stands for
    [sql.Open], which answers a handle or an error (and then a [nil]
    handle). The driver after the call comes with the error. *)
Definition Open (sqlOpen : string -> string -> result DB) (m : ClickhouseDriver)
  : ClickhouseDriver * option error :=
  match sqlOpen "clickhouse" (connStr m) with
  | Err err => ({| connStr := connStr m; dbConn := None |}, Some err)
  | Ok h => ({| connStr := connStr m; dbConn := Some h |}, None)
  end.

(** [UseLastInsertID], [UseTopClause], [IndexPlaceholders] *)
Definition UseLastInsertID : bool := false.
Definition UseTopClause : bool := false.
Definition IndexPlaceholders : bool := false.

(** [RightQuote], [LeftQuote]: the backtick. *)
Definition RightQuote : ascii := ascii_of_nat 96.
Definition LeftQuote : ascii := ascii_of_nat 96.

(** [ForeignKeyInfo]: [return nil, nil], whatever the type of the keys. *)
Definition ForeignKeyInfo {ForeignKey : Type} (schema table : string)
  : result (list ForeignKey) :=
  Ok [].

(* ===================================================================== *)
(** * The test harness (clickhouse_main.tpl) *)
(* ===================================================================== *)

Module Tester.

(** [type clickhouseTester struct] *)
Record clickhouseTester := mkTester {
  dbConn : option DB;
  database : string;
  host : string;
  username : string;
  password : string;
  port : Z;
  secure : bool;
  skipVerify : bool;
  testDBName : string
}.

(** The [cfg] literal of [conn]: the fields it does not name are zero. *)
Definition connConfig (m : clickhouseTester) : ClickhouseDriverConfig :=
  {| Username := username m;
     Password := password m;
     Database := testDBName m;
     Host := host m;
     Port := port m;
     ReadTimeout := 0;
     WriteTimeout := 0;
     Nagle := false;
     AltHosts := [];
     ConnectionOpenStrategy := "";
     BlockSize := 0;
     Debug := false;
     Secure := secure m;
     SkipVerify := false |}.

Definition setConn (m : clickhouseTester) (h : option DB) : clickhouseTester :=
  {| dbConn := h; database := database m; host := host m;
     username := username m; password := password m; port := port m;
     secure := secure m; skipVerify := skipVerify m;
     testDBName := testDBName m |}.

(** [func (m *clickhouseTester) conn()], returning the handle or the error,
    and the tester after the call; [sqlOpen] stands for [sql.Open]. *)
Definition conn (sqlOpen : string -> string -> result DB) (m : clickhouseTester)
  : result DB * clickhouseTester :=
  match dbConn m with
  | Some h => (Ok h, m)
  | None =>
      match sqlOpen "clickhouse" (ClickhouseBuildQueryString (connConfig m)) with
      | Err err => (Err err, setConn m None)
      | Ok h => (Ok h, setConn m (Some h))
      end
  end.

End Tester.

(* ===================================================================== *)
(** * Package [types]: the FixedString type *)
(* ===================================================================== *)

Module Types.

(** [type FixedString string] *)
Definition FixedString : Type := string.

(** The cutset [string("\x00")]: the one byte zero. *)
Definition nul : string := String Ascii.zero "".

(** [func (str FixedString) trimZero() FixedString] *)
Definition trimZero (str : FixedString) : FixedString := Strings.Trim str nul.

(** [func (str FixedString) String() string] *)
Definition String_ (str : FixedString) : string := trimZero str.

(** The source handed to [Scan]: a [string], or a value of any other
    dynamic type. *)
Inductive source := SrcString (s : string) | SrcOther.

(** [func (str FixedString) Value() (driver.Value, error)]: the trimmed
    text, as a [string] value, and no error. *)
Definition Value (str : FixedString) : result source :=
  Ok (SrcString (String_ str)).

(** [func (str *FixedString) Scan(src interface{}) error]: the receiver
    after the call, and the error. *)
Definition Scan (str : FixedString) (src : source) : FixedString * option error :=
  match src with
  | SrcString s => (trimZero s, None)
  | SrcOther => (str, Some (ErrorString "incompatible type for FixedString"))
  end.

End Types.

(* ===================================================================== *)
(** * Notions used to state the further properties *)
(* ===================================================================== *)

(** How many times the byte [c] occurs in [s]. *)
Fixpoint countByte (c : ascii) (s : string) : nat :=
  match s with
  | "" => O
  | String a s' => (if Ascii.eqb a c then 1 else 0)%nat + countByte c s'
  end.

(** The catalog row a column was read from, and the row of a table name. *)
Definition rowOfColumn (c : Column) : Row :=
  [Some (Name c); Some (FullDBType c); Some (Default c)].

Definition nameRow (name : string) : Row := [Some name].

(** The column [Columns] builds from the three cells of a row. *)
Definition columnOfCells (cells : string * string * string) : Column :=
  let '(colName, fullColType, defaultValue) := cells in
  {| Name := colName; Type_ := ""; DBType := normalizeType fullColType;
     FullDBType := fullColType; Default := defaultValue |}.

Definition rowOfCells (cells : string * string * string) : Row :=
  let '(a, b, c) := cells in [Some a; Some b; Some c].

(** A catalog that answers every query with the given rows and iteration
    error. *)
Definition fixedCatalog (rows : list Row) (err : option error) : DB :=
  {| Query := fun _ _ => Ok (mkRows rows err) |}.

(** The fourth malformed shape of an engine string: the body has a comma,
    but once the partitioning key and the commas and spaces after it are
    dropped, no comma is left to set the granularity apart. *)
Definition granularityMissing (str : string) : bool :=
  match engineBody str with
  | Some body =>
      let idx := Strings.Index body "," in
      if (idx =? -1)%Z then false
      else (Strings.LastIndex
              (Strings.TrimLeft (Strings.sliceFrom body idx) ", ") ","
            =? -1)%Z
  | None => false
  end.

(** The query component in closed form: the [key=value] pairs of the
    connection string, in the order [Encode] writes them (the byte order of
    the keys), each optional one under the test that sets it. *)
Definition optional (present : bool) (pair : string) : list string :=
  if present then [pair] else [].

Definition connectionParameters (config : ClickhouseDriverConfig) : list string :=
  (optional (0 <? Z.of_nat (length (AltHosts config)))%Z
     ("alt_hosts=" +:+ Url.QueryEscape (Strings.Join (AltHosts config) ","))
   ++ optional (0 <? BlockSize config)%Z
        ("block_size=" +:+ Strconv.Itoa (BlockSize config))
   ++ optional (negb (ConnectionOpenStrategy config =? ""))
        ("connection_open_strategy="
           +:+ Url.QueryEscape (ConnectionOpenStrategy config))
   ++ ["database=" +:+ Url.QueryEscape (Database config);
       "debug=" +:+ Strconv.FormatBool (Debug config);
       "no_delay=" +:+ Strconv.FormatBool (negb (Nagle config))]
   ++ optional (negb (Password config =? ""))
        ("password=" +:+ Url.QueryEscape (Password config))
   ++ optional (negb (ReadTimeout config =? 0)%Z)
        ("read_timeout=" +:+ Strconv.Itoa (ReadTimeout config))
   ++ optional (negb (Username config =? ""))
        ("username=" +:+ Url.QueryEscape (Username config))
   ++ optional (negb (WriteTimeout config =? 0)%Z)
        ("write_timeout=" +:+ Strconv.Itoa (WriteTimeout config)))%list.

(** A stand-in for [sql.Open] that answers the empty catalog and one that
    always fails. *)
Definition openEmpty (driverName dataSourceName : string) : result DB :=
  Ok emptyCatalog.

Definition openFails (driverName dataSourceName : string) : result DB :=
  Err (DriverError "sql: unknown driver").

(* ===================================================================== *)
(** * Properties of the type translator *)
(* ===================================================================== *)

(** One step through the [switch]: case analysis on the test of the first
    conditional of the goal. *)
Ltac switch_case :=
  match goal with
  | |- context [if ?b then _ else _] => destruct b
  end.

Section Translate.

Variable g : Globals.
Variable c : Column.

(** X1: translation changes the translated type only: the name, the base
    type, the raw type and the default of the column are returned as they
    came. *)
Lemma TranslateColumnType_keeps_fields :
  let c' := TranslateColumnType g c in
  Name c' = Name c /\ DBType c' = DBType c /\
  FullDBType c' = FullDBType c /\ Default c' = Default c.
Proof.
  unfold TranslateColumnType.
  repeat switch_case; cbn; auto.
Qed.

(** X3: a [UInt8] column is translated to ["bool"] when the package flag
    [TinyintAsBool] is set and to ["uint8"] when it is clear. *)
Lemma TranslateColumnType_UInt8 :
  DBType c = "UInt8" ->
  Type_ (TranslateColumnType g c) = if TinyintAsBool g then "bool" else "uint8".
Proof.
  intros H. unfold TranslateColumnType. rewrite H. cbn.
  destruct (TinyintAsBool g); reflexivity.
Qed.

End Translate.

(** C1 (what the code does at the input where it departs from the claim):
    with [UInt8AsBool] set and [TinyintAsBool] clear, a [UInt8] column is
    translated to ["uint8"], not ["bool"]; with [UInt8AsBool] clear and
    [TinyintAsBool] set it is translated to ["bool"], not ["uint8"]. The
    mapping follows [TinyintAsBool], not the flag documented for it. *)
Theorem TranslateColumnType_UInt8_follows_TinyintAsBool :
  let col := {| Name := "flag"; Type_ := ""; DBType := "UInt8";
                FullDBType := "UInt8"; Default := "" |} in
  Type_ (TranslateColumnType {| UInt8AsBool := true; TinyintAsBool := false |} col)
    = "uint8"
  /\ Type_ (TranslateColumnType {| UInt8AsBool := false; TinyintAsBool := true |} col)
    = "bool".
Proof. split; reflexivity. Qed.

(** C10: the flag [UInt8AsBool] has no effect on type translation: with
    everything else equal, translating with the flag set and with the flag
    clear gives the same column. *)
Theorem TranslateColumnType_ignores_UInt8AsBool :
  forall (g : Globals) (c : Column),
    TranslateColumnType (set_UInt8AsBool true g) c
    = TranslateColumnType (set_UInt8AsBool false g) c.
Proof. intros g c. reflexivity. Qed.

(** C5: type translation is total: the translated type is never the empty
    string, and a base type outside the recognized set is translated to
    ["[]byte"]. *)
Theorem TranslateColumnType_total :
  forall (g : Globals) (c : Column),
    Type_ (TranslateColumnType g c) <> ""
    /\ (recognized (DBType c) = false ->
        Type_ (TranslateColumnType g c) = "[]byte").
Proof.
  intros g c. split.
  - unfold TranslateColumnType.
    repeat switch_case; cbn; discriminate.
  - unfold recognized, recognizedTypes. cbn [existsb].
    intros H. repeat (apply orb_false_elim in H as [? H]).
    unfold TranslateColumnType.
    repeat match goal with
           | E : (_ =? _) = false |- _ => rewrite E; clear E
           end.
    reflexivity.
Qed.

Lemma TranslateColumnType_total_witness :
  Type_ (TranslateColumnType (mkGlobals false false)
           (mkColumn "id" "" "UUID" "UUID" "")) = "[]byte".
Proof.
  apply (proj2 (TranslateColumnType_total (mkGlobals false false)
                  (mkColumn "id" "" "UUID" "UUID" ""))).
  reflexivity.
Defined.

(* ===================================================================== *)
(** * Facts about the string functions *)
(* ===================================================================== *)

Section StringFacts.

Import Strings.

Lemma append_cons (a : ascii) (s t : string) :
  String a s +:+ t = String a (s +:+ t).
Proof. reflexivity. Qed.

Lemma append_nil_l (t : string) : "" +:+ t = t.
Proof. reflexivity. Qed.

Lemma append_assoc (s t u : string) : (s +:+ t) +:+ u = s +:+ (t +:+ u).
Proof.
  induction s as [|a s IH]; [done|]. by rewrite !append_cons, IH.
Qed.

Lemma takeBytes_app (pre post : string) :
  takeBytes (String.length pre) (pre +:+ post) = pre.
Proof.
  induction pre as [|a pre IH]; [by destruct post|].
  rewrite append_cons. cbn [String.length takeBytes]. by rewrite IH.
Qed.

Lemma dropBytes_app (pre post : string) :
  dropBytes (String.length pre) (pre +:+ post) = post.
Proof.
  induction pre as [|a pre IH]; [done|].
  rewrite append_cons. cbn [String.length dropBytes]. apply IH.
Qed.

Lemma Index_lower (s : string) (c : ascii) : -1 <= Index s c.
Proof.
  induction s as [|a s IH]; cbn; [lia|].
  destruct (Ascii.eqb a c); [lia|].
  destruct (Z.ltb_spec (Index s c) 0); lia.
Qed.

(** An index that is not [-1] is a valid position: slicing with it cannot
    leave the string. *)
Lemma Index_range (s : string) (c : ascii) :
  Index s c <> -1 -> 0 <= Index s c < len s.
Proof.
  unfold len. induction s as [|a s IH]; cbn [Index String.length]; [lia|].
  destruct (Ascii.eqb a c); [lia|].
  destruct (Z.ltb_spec (Index s c) 0); [lia|]. intros _.
  assert (Index s c <> -1) by lia. specialize (IH H0). lia.
Qed.

(** The position [Index] finds splits the string around the first
    separator. *)
Lemma Index_split (s : string) (c : ascii) :
  Index s c <> -1 ->
  exists pre post,
    s = pre +:+ String c post /\ Index pre c = -1 /\
    Index s c = Z.of_nat (String.length pre).
Proof.
  induction s as [|a s IH]; cbn [Index]; [lia|].
  destruct (Ascii.eqb_spec a c) as [->|Hne].
  - intros _. exists "", s. auto.
  - destruct (Z.ltb_spec (Index s c) 0) as [Hlt|Hge]; [lia|]. intros _.
    destruct IH as (pre & post & -> & Hpre & Hidx); [lia|].
    exists (String a pre), post. cbn [String.append Index String.length].
    destruct (Ascii.eqb_spec a c); [done|].
    rewrite Hpre, Hidx. cbn. repeat split; lia.
Qed.

Lemma sliceTo_Index (pre post : string) (c : ascii) :
  sliceTo (pre +:+ String c post) (Z.of_nat (String.length pre)) = pre.
Proof. unfold sliceTo. rewrite Nat2Z.id. apply takeBytes_app. Qed.

Lemma sliceFrom_Index (pre post : string) (c : ascii) :
  sliceFrom (pre +:+ String c post) (Z.of_nat (String.length pre))
  = String c post.
Proof. unfold sliceFrom. rewrite Nat2Z.id. apply dropBytes_app. Qed.

Lemma truncateAtParen_none (s : string) :
  Index s "(" = -1 -> truncateAtParen s = s.
Proof.
  induction s as [|a s IH]; cbn [Index truncateAtParen]; [done|].
  destruct (Ascii.eqb a "("); [lia|].
  destruct (Z.ltb_spec (Index s "(") 0) as [Hlt|Hge]; [|lia].
  intros _. rewrite IH; [done|]. pose proof (Index_lower s "("). lia.
Qed.

Lemma truncateAtParen_app (pre post : string) :
  Index pre "(" = -1 -> truncateAtParen (pre +:+ String "(" post) = pre.
Proof.
  induction pre as [|a pre IH]; [done|].
  rewrite append_cons. cbn [Index truncateAtParen].
  destruct (Ascii.eqb a "("); [lia|].
  destruct (Z.ltb_spec (Index pre "(") 0) as [Hlt|Hge]; [|lia].
  intros _. rewrite IH; [done|]. pose proof (Index_lower pre "("). lia.
Qed.

(** What the normalization computes: the raw type is cut at its first
    ['('] unless it has none or begins with it. *)
Lemma normalizeType_spec (raw : string) :
  normalizeType raw = if startsWithParen raw then raw else truncateAtParen raw.
Proof.
  unfold normalizeType.
  destruct (Z.eq_dec (Index raw "(") (-1)) as [Hno|Hyes].
  - rewrite Hno. cbn. rewrite truncateAtParen_none by done.
    by destruct (startsWithParen raw).
  - destruct (Index_split raw "(" Hyes) as (pre & post & -> & Hpre & Hidx).
    rewrite Hidx, sliceTo_Index, truncateAtParen_app by done.
    destruct pre as [|a pre]; [done|].
    rewrite append_cons. cbn [startsWithParen String.length].
    cbn [Index] in Hpre. destruct (Ascii.eqb a "("); [lia|].
    destruct (Z.ltb_spec 0 (Z.of_nat (S (String.length pre)))); [done|lia].
Qed.

End StringFacts.

(* ===================================================================== *)
(** * Properties of the catalog operations *)
(* ===================================================================== *)

Section Catalog.

Variable db : DB.

Lemma scanColumns_Forall (P : Column -> Prop) (tableName : string) :
  (forall colName fullColType defaultValue,
      P {| Name := colName; Type_ := ""; DBType := normalizeType fullColType;
           FullDBType := fullColType; Default := defaultValue |}) ->
  forall rows acc cols,
    Forall P acc -> scanColumns tableName rows acc = Ok cols -> Forall P cols.
Proof.
  intros Hnew. induction rows as [|r rows IH]; intros acc cols Hacc; cbn.
  - intros [= <-]. exact Hacc.
  - destruct (Scan3 r) as [[[colName fullColType] defaultValue]|err]; [|done].
    apply IH. apply Forall_app. split; [done|]. constructor; [apply Hnew|constructor].
Qed.

Lemma Columns_Forall (P : Column -> Prop) (database tableName : string) :
  (forall colName fullColType defaultValue,
      P {| Name := colName; Type_ := ""; DBType := normalizeType fullColType;
           FullDBType := fullColType; Default := defaultValue |}) ->
  forall cols, Columns db database tableName = Ok cols -> Forall P cols.
Proof.
  intros Hnew cols. unfold Columns.
  destruct (Query db columnsQuery [tableName; database]) as [rows|err]; [|done].
  apply scanColumns_Forall; [done|constructor].
Qed.

Lemma fold_left_snoc (l acc : list string) :
  fold_left (fun args w => (args ++ [w])%list) l acc = (acc ++ l)%list.
Proof.
  revert acc; induction l as [|w l IH]; intros acc; cbn.
  - by rewrite app_nil_r.
  - by rewrite IH, <- app_assoc.
Qed.

Lemma Repeat_placeholders (n : nat) :
  String "?" (Strings.Repeat ",?" n) = Strings.Join (replicate (S n) "?") ",".
Proof.
  induction n as [|n IH]; [done|].
  change (Strings.Repeat ",?" (S n))
    with (String "," (String "?" (Strings.Repeat ",?" n))).
  rewrite IH. reflexivity.
Qed.

Lemma tableNamesQuery_whitelist (database : string) (w : string)
      (whitelist blacklist : list string) :
  tableNamesQuery database (w :: whitelist) blacklist
  = ("select name from system.tables where database = ? and database <> 'system'"
       +:+ " and name in ("
       +:+ Strings.Join (replicate (S (length whitelist)) "?") "," +:+ ");",
     database :: w :: whitelist).
Proof.
  unfold tableNamesQuery.
  change (0 <? Z.of_nat (length (w :: whitelist)))%Z with true. cbv iota.
  rewrite fold_left_snoc. cbn [app]. do 3 f_equal.
  rewrite <- Repeat_placeholders. reflexivity.
Qed.

End Catalog.

(** C6: with a non-empty whitelist and a non-empty blacklist the table
    listing applies the whitelist only: the query text and the arguments are
    those built for the same whitelist and an empty blacklist. The text is
    the fixed [select] with one [?] per whitelist name and the arguments are
    the database name followed by the whitelist names, so nothing of the
    blacklist enters either: a blacklist name is among the arguments only
    if it is also the database name or a whitelist name. The operation as a
    whole answers the same as with an empty blacklist. *)
Theorem TableNames_whitelist_only :
  forall (db : DB) (database : string) (whitelist blacklist : list string),
    whitelist <> [] ->
    blacklist <> [] ->
    tableNamesQuery database whitelist blacklist
    = tableNamesQuery database whitelist []
    /\ tableNamesQuery database whitelist blacklist
       = ("select name from system.tables where database = ? and database <> 'system'"
            +:+ " and name in ("
            +:+ Strings.Join (replicate (length whitelist) "?") "," +:+ ");",
          database :: whitelist)
    /\ (forall b : string,
          In b blacklist -> b <> database -> ~ In b whitelist ->
          ~ In b (snd (tableNamesQuery database whitelist blacklist)))
    /\ TableNames db database whitelist blacklist
       = TableNames db database whitelist [].
Proof.
  intros db database [|w whitelist] blacklist Hw _; [done|].
  assert (tableNamesQuery database (w :: whitelist) blacklist
          = tableNamesQuery database (w :: whitelist) []) as Heq
    by (by rewrite !tableNamesQuery_whitelist).
  split; [exact Heq|]. split; [|split].
  - apply tableNamesQuery_whitelist.
  - intros b _ Hdb Hwl. rewrite tableNamesQuery_whitelist.
    cbn [snd]. intros [Hb|Hb]; [by apply Hdb|by apply Hwl].
  - unfold TableNames. by rewrite Heq.
Qed.

Lemma TableNames_whitelist_only_witness :
  tableNamesQuery "shop" ["orders"; "users"] ["audit"]
  = ("select name from system.tables where database = ? and database <> 'system' and name in (?,?);",
     ["shop"; "orders"; "users"]).
Proof.
  apply (proj1 (proj2 (TableNames_whitelist_only emptyCatalog "shop"
                         ["orders"; "users"] ["audit"]
                         ltac:(discriminate) ltac:(discriminate)))).
Defined.

(** C4 (as amended): every column the column listing produces has as base
    type its raw type cut at the first ['('], except that a raw type
    beginning with ['('] is kept whole (as is one without any ['(']); the
    raw type ["FixedString(16)"] gives the base type ["FixedString"]. *)
Theorem Columns_base_type :
  forall (db : DB) (database tableName : string) (cols : list Column) (c : Column),
    Columns db database tableName = Ok cols ->
    In c cols ->
    DBType c = (if startsWithParen (FullDBType c) then FullDBType c
                else truncateAtParen (FullDBType c))
    /\ (FullDBType c = "FixedString(16)" -> DBType c = "FixedString").
Proof.
  intros db database tableName cols c Hcols Hin.
  assert (DBType c = normalizeType (FullDBType c)) as Hnorm.
  { revert c Hin. apply List.Forall_forall.
    apply (Columns_Forall db (fun c => DBType c = normalizeType (FullDBType c))
             database tableName); [reflexivity|exact Hcols]. }
  split.
  - rewrite Hnorm. apply normalizeType_spec.
  - intros Hraw. rewrite Hnorm, Hraw. reflexivity.
Qed.

Lemma Columns_base_type_witness :
  DBType (mkColumn "id" "" "FixedString" "FixedString(16)" "") = "FixedString".
Proof.
  apply (proj2 (Columns_base_type (oneColumnCatalog "id" "FixedString(16)")
                  "shop" "orders"
                  [mkColumn "id" "" "FixedString" "FixedString(16)" ""]
                  (mkColumn "id" "" "FixedString" "FixedString(16)" "")
                  eq_refl (or_introl eq_refl))).
  reflexivity.
Defined.

(** C4 (as stated) fails: a raw type that begins with ['('] is not cut at
    that ['(']; the listing keeps it whole as the base type. *)
Lemma leading_paren_raw_type_kept_whole :
  ~ (forall (db : DB) (database tableName : string) (cols : list Column) (c : Column),
        Columns db database tableName = Ok cols ->
        In c cols ->
        DBType c = truncateAtParen (FullDBType c)).
Proof.
  intros H.
  specialize (H (oneColumnCatalog "pair" "(UInt8, String)") "shop" "orders"
                [mkColumn "pair" "" "(UInt8, String)" "(UInt8, String)" ""]
                (mkColumn "pair" "" "(UInt8, String)" "(UInt8, String)" "")
                eq_refl (or_introl eq_refl)).
  discriminate H.
Qed.

(** C7: when the catalog has no row for the table, the primary-key lookup
    returns the absent result and no error. *)
Theorem PrimaryKeyInfo_absent :
  forall (db : DB) (database table : string) (rows : Rows),
    Query db primaryKeyQuery [table; database] = Ok rows ->
    rowsData rows = [] ->
    rowsErr rows = None ->
    PrimaryKeyInfo db database table = Ok None.
Proof.
  intros db database table rows Hq Hdata Herr.
  unfold PrimaryKeyInfo, QueryRow, RowScan2. rewrite Hq. cbn.
  rewrite Hdata, Herr. reflexivity.
Qed.

Lemma PrimaryKeyInfo_absent_witness :
  PrimaryKeyInfo emptyCatalog "shop" "orders" = Ok None.
Proof.
  apply (PrimaryKeyInfo_absent emptyCatalog "shop" "orders" (mkRows [] None));
    reflexivity.
Defined.

(* ===================================================================== *)
(** * Properties of the engine-string parser *)
(* ===================================================================== *)

(** C2: the engine string of the example parses to the engine name
    [MergeTree], the partitioning key [EventDate], the primary-key columns
    [CounterID] and [EventDate] in that order, and the granularity 8192. *)
Theorem parseEngine_MergeTree :
  parseEngine "MergeTree(EventDate, (CounterID, EventDate), 8192)"
  = Ok {| engineName := "MergeTree";
          PartitioningKey := "EventDate";
          enginePrimaryKey := ["CounterID"; "EventDate"];
          Granularity := 8192 |}.
Proof. vm_compute. reflexivity. Qed.

Section ParserFacts.

Import Strings.

Lemma Index_cons_none (a c : ascii) (s : string) :
  Index (String a s) c = -1 <-> a <> c /\ Index s c = -1.
Proof.
  cbn [Index]. pose proof (Index_lower s c).
  destruct (Ascii.eqb_spec a c) as [->|Hne];
    destruct (Z.ltb_spec (Index s c) 0); split; intros; try lia;
    try tauto; try (split; [done|lia]).
Qed.

Lemma LastIndex_lower (s : string) (c : ascii) : -1 <= LastIndex s c.
Proof.
  induction s as [|a s IH]; cbn; [lia|].
  destruct (Z.leb_spec 0 (LastIndex s c)); [lia|].
  destruct (Ascii.eqb a c); lia.
Qed.

Lemma LastIndex_cons_none (a c : ascii) (s : string) :
  LastIndex (String a s) c = -1 <-> a <> c /\ LastIndex s c = -1.
Proof.
  cbn [LastIndex]. pose proof (LastIndex_lower s c).
  destruct (Z.leb_spec 0 (LastIndex s c));
    destruct (Ascii.eqb_spec a c) as [->|Hne]; split; intros; try lia;
    try tauto; try (split; [done|lia]).
Qed.

(** The two searches agree on whether the separator occurs at all. *)
Lemma LastIndex_none_iff (s : string) (c : ascii) :
  LastIndex s c = -1 <-> Index s c = -1.
Proof.
  induction s as [|a s IH]; [done|].
  rewrite LastIndex_cons_none, Index_cons_none. tauto.
Qed.

Lemma LastIndex_range (s : string) (c : ascii) :
  LastIndex s c <> -1 -> 0 <= LastIndex s c < len s.
Proof.
  unfold len. induction s as [|a s IH]; cbn [LastIndex String.length]; [lia|].
  destruct (Z.leb_spec 0 (LastIndex s c)).
  - intros _. assert (LastIndex s c <> -1) as Hne by lia.
    specialize (IH Hne). lia.
  - destruct (Ascii.eqb a c); lia.
Qed.

(** [LastIndex] finds the separator that has none after it. *)
Lemma LastIndex_app (pre post : string) (c : ascii) :
  Index post c = -1 ->
  LastIndex (pre +:+ String c post) c = Z.of_nat (String.length pre).
Proof.
  intros Hpost. apply LastIndex_none_iff in Hpost.
  induction pre as [|a pre IH].
  - rewrite append_nil_l. cbn [LastIndex String.length]. rewrite Hpost.
    cbn. by rewrite Ascii.eqb_refl.
  - rewrite append_cons. cbn [LastIndex String.length]. rewrite IH.
    destruct (Z.leb_spec 0 (Z.of_nat (String.length pre))); lia.
Qed.

Lemma LastIndex_split (s : string) (c : ascii) :
  LastIndex s c <> -1 ->
  exists pre post, s = pre +:+ String c post /\ Index post c = -1.
Proof.
  induction s as [|a s IH]; cbn [LastIndex]; [lia|].
  destruct (Z.leb_spec 0 (LastIndex s c)) as [Hge|Hlt].
  - intros _. destruct IH as (pre & post & -> & Hpost); [lia|].
    exists (String a pre), post. by rewrite append_cons.
  - destruct (Ascii.eqb_spec a c) as [->|Hne]; [|lia]. intros _.
    exists "", s. split; [done|]. apply LastIndex_none_iff.
    pose proof (LastIndex_lower s c). lia.
Qed.

Lemma sliceFrom_at (pre post : string) :
  sliceFrom (pre +:+ post) (Z.of_nat (String.length pre)) = post.
Proof. unfold sliceFrom. rewrite Nat2Z.id. apply dropBytes_app. Qed.

Lemma length_snoc (pre : string) (c : ascii) :
  String.length (pre +:+ String c "") = S (String.length pre).
Proof.
  induction pre as [|a pre IH]; [done|].
  rewrite append_cons. cbn [String.length]. by rewrite IH.
Qed.

Lemma sliceFrom_after (pre post : string) (c : ascii) :
  sliceFrom (pre +:+ String c post) (Z.of_nat (String.length pre) + 1) = post.
Proof.
  unfold sliceFrom.
  replace (Z.to_nat (Z.of_nat (String.length pre) + 1))
    with (String.length (pre +:+ String c "")).
  - replace (pre +:+ String c post) with ((pre +:+ String c "") +:+ post).
    + apply dropBytes_app.
    + by rewrite append_assoc.
  - rewrite length_snoc. lia.
Qed.

Lemma TrimLeft_suffix (s cutset : string) :
  exists pre, s = pre +:+ TrimLeft s cutset.
Proof.
  induction s as [|a s [pre IH]]; [by exists ""|]. cbn [TrimLeft].
  destruct (inCutset a cutset).
  - exists (String a pre). by rewrite append_cons, <- IH.
  - by exists "".
Qed.

(** On a text without commas, trimming commas and spaces is trimming
    spaces. *)
Lemma TrimLeft_no_comma (s : string) :
  Index s "," = -1 ->
  TrimLeft s ", " = TrimLeft s " " /\ Index (TrimLeft s " ") "," = -1.
Proof.
  induction s as [|a s IH]; [done|]. intros Hs.
  pose proof Hs as Hs'. apply Index_cons_none in Hs' as [Ha Hrest].
  cbn [TrimLeft inCutset].
  destruct (Ascii.eqb_spec a ",") as [|_]; [done|]. cbn [orb].
  destruct (Ascii.eqb a " "); cbn [orb]; [by apply IH|done].
Qed.

Lemma TrimRight_no_comma (s : string) :
  Index s "," = -1 -> TrimRight s ", " = TrimRight s " ".
Proof.
  induction s as [|a s IH]; [done|]. intros Hs.
  apply Index_cons_none in Hs as [Ha Hrest].
  cbn [TrimRight inCutset]. rewrite IH by done.
  destruct (Ascii.eqb_spec a ",") as [|_]; [done|]. reflexivity.
Qed.

Lemma Trim_after_comma (tail : string) :
  Index tail "," = -1 -> Trim (String "," tail) ", " = Trim tail " ".
Proof.
  intros Htail. unfold Trim. cbn [TrimLeft inCutset Ascii.eqb orb].
  change (if (Ascii.eqb "," "," || (Ascii.eqb "," " " || false))%bool
          then TrimLeft tail ", " else String "," tail)
    with (TrimLeft tail ", ").
  destruct (TrimLeft_no_comma tail Htail) as [-> Hfree].
  by apply TrimRight_no_comma.
Qed.

End ParserFacts.

Section ParserRejects.

Import Strings.

Lemma parseUintLoop_digits (s : string) (n v : Z) :
  Strconv.parseUintLoop s n = (v, None) -> allDigits s = true.
Proof.
  revert n. induction s as [|c s IH]; intros n; [done|].
  cbn [Strconv.parseUintLoop allDigits]. unfold isDigit.
  destruct (Z.ltb_spec (Z.of_N (N_of_ascii c) - 48) 0) as [Hlo|Hlo]; [done|].
  destruct (Z.ltb_spec 9 (Z.of_N (N_of_ascii c) - 48)) as [Hhi|Hhi]; [done|].
  cbn [orb]. destruct (_ <=? n)%Z; [done|]. destruct (_ <? _)%Z; [done|].
  intros Hrest. rewrite (IH _ Hrest).
  destruct (N.leb_spec 48 (N_of_ascii c)); [|lia].
  destruct (N.leb_spec (N_of_ascii c) 57); [done|lia].
Qed.

Lemma ParseUint_digits (s : string) (v : Z) :
  Strconv.ParseUint s = (v, None) -> unsignedDigits s = true.
Proof.
  destruct s as [|c s]; [done|]. unfold Strconv.ParseUint, unsignedDigits.
  apply parseUintLoop_digits.
Qed.

Lemma parseUintLoop_range (s : string) (n v : Z) :
  Strconv.parseUintLoop s n = (v, Some ErrRange) -> v = Strconv.maxUint64.
Proof.
  revert n. induction s as [|c s IH]; intros n; [done|].
  cbn [Strconv.parseUintLoop].
  destruct (_ || _)%bool; [done|].
  destruct (_ <=? n)%Z; [by intros [= <-]|].
  destruct (_ <? _)%Z; [by intros [= <-]|]. apply IH.
Qed.

Lemma ParseUint_range (s : string) (v : Z) :
  Strconv.ParseUint s = (v, Some ErrRange) -> v = Strconv.maxUint64.
Proof.
  destruct s as [|c s]; [done|]. unfold Strconv.ParseUint.
  apply parseUintLoop_range.
Qed.

(** [Atoi] accepts nothing but the written form of a base-10 integer. *)
Lemma Atoi_accepts_only_integers (s : string) (n : Z) :
  Strconv.Atoi s = Ok n -> isBase10Integer s = true.
Proof.
  unfold Strconv.Atoi, Strconv.ParseInt, isBase10Integer.
  destruct s as [|c s]; [done|].
  rewrite (orb_comm (Ascii.eqb c "+")).
  set (digits := if (Ascii.eqb c "-" || Ascii.eqb c "+")%bool then s else String c s).
  replace (if (Ascii.eqb c "-" || Ascii.eqb c "+")%bool
           then unsignedDigits s else unsignedDigits (String c s))
    with (unsignedDigits digits) by (by unfold digits; destruct (_ || _)%bool).
  destruct (Strconv.ParseUint digits) as [un [[]|]] eqn:Hparse; [done| |].
  - apply ParseUint_range in Hparse as ->. by destruct (Ascii.eqb c "-").
  - intros _. by apply ParseUint_digits in Hparse.
Qed.

(** Past the partitioning key, the parser either finds no comma left, or
    hands to [Atoi] exactly the trailing field of the body. *)
Lemma granularity_field (body field : string) :
  trailingField body = Some field ->
  Index body "," <> -1 /\
  (let params := TrimLeft (sliceFrom body (Index body ",")) ", " in
   LastIndex params "," = -1 \/
   Trim (sliceFrom params (LastIndex params ",")) ", " = field).
Proof.
  unfold trailingField.
  destruct (Z.eqb_spec (LastIndex body ",") (-1)) as [|Hlast]; [done|].
  intros [= <-].
  assert (Index body "," <> -1) as Hfirst
    by (by rewrite <- LastIndex_none_iff).
  split; [exact Hfirst|]. cbv zeta.
  destruct (Index_split body "," Hfirst) as (p & rest & -> & _ & ->).
  rewrite sliceFrom_Index.
  destruct (TrimLeft_suffix (String "," rest) ", ") as [x Hx].
  remember (TrimLeft (String "," rest) ", ") as params eqn:Hparams.
  destruct (Z.eq_dec (LastIndex params ",") (-1)) as [|Hlast2]; [by left|].
  right.
  destruct (LastIndex_split params "," Hlast2) as (pre2 & tail & -> & Htail).
  rewrite LastIndex_app, sliceFrom_at, Trim_after_comma by done.
  rewrite Hx, <- !append_assoc.
  by rewrite LastIndex_app, sliceFrom_after.
Qed.

End ParserRejects.

(** C3: the parser returns an error, and no engine, for every string
    without ['('], for every string whose body (the text from the first
    ['('] on, trimmed of parentheses and spaces) has no comma, and for every
    string whose trailing field (the text after the last comma of the body,
    trimmed of spaces) is not a base-10 integer: not an optional sign
    followed by decimal digits, or not accepted by [strconv.Atoi]. *)
Theorem parseEngine_rejects_malformed :
  forall str : string,
    noOpenBracket str = true \/
    bodyWithoutComma str = true \/
    trailingFieldNotInteger str = true ->
    exists e : error, parseEngine str = Err e.
Proof.
  intros str [H|[H|H]].
  - unfold noOpenBracket in H. unfold parseEngine. rewrite H. eauto.
  - unfold bodyWithoutComma, engineBody in H. unfold parseEngine.
    destruct (Strings.Index str "(" =? -1)%Z; [eauto|]. cbv zeta.
    rewrite H. eauto.
  - unfold trailingFieldNotInteger, engineBody in H. unfold parseEngine.
    destruct (Strings.Index str "(" =? -1)%Z; [eauto|]. cbv zeta.
    destruct (trailingField _) as [field|] eqn:Hfield; [|done].
    apply granularity_field in Hfield as [Hfirst Hrest]. cbv zeta in Hrest.
    destruct (Z.eqb_spec (Strings.Index
      (Strings.Trim (Strings.sliceFrom str (Strings.Index str "(")) "() ") ",")
      (-1)) as [|_]; [eauto|].
    destruct Hrest as [->| ->]; [eauto|].
    destruct (_ =? -1)%Z; [eauto|].
    destruct (Strconv.Atoi field) as [n|err] eqn:Hatoi; [|eauto].
    apply Atoi_accepts_only_integers in Hatoi. by rewrite Hatoi in H.
Qed.

Lemma parseEngine_rejects_malformed_witness :
  (exists e, parseEngine "Log" = Err e)
  /\ (exists e, parseEngine "MergeTree(EventDate)" = Err e)
  /\ (exists e, parseEngine "MergeTree(EventDate, (CounterID, EventDate), fine)" = Err e).
Proof.
  split; [|split].
  - apply (parseEngine_rejects_malformed "Log"). left. reflexivity.
  - apply (parseEngine_rejects_malformed "MergeTree(EventDate)").
    right. left. reflexivity.
  - apply (parseEngine_rejects_malformed
             "MergeTree(EventDate, (CounterID, EventDate), fine)").
    right. right. reflexivity.
Defined.

(* ===================================================================== *)
(** * Properties of the connection-string builder *)
(* ===================================================================== *)

Section BuilderFacts.

Import Strings.

Local Abbreviation writePair :=
  (fun buf part : string =>
     (if (0 <? len buf)%Z then buf +:+ "&" else buf) +:+ part).

Lemma append_not_empty (s t : string) (c : ascii) : s +:+ String c t <> "".
Proof. by destruct s. Qed.

Lemma eqb_append_empty (s t u : string) (c : ascii) :
  (s +:+ String c t +:+ u =? "") = false.
Proof. by destruct s. Qed.

Lemma Join_prepend (x q sep : string) (rest : list string) :
  Join ((x +:+ q) :: rest) sep = x +:+ Join (q :: rest) sep.
Proof. destruct rest; cbn [Join]; [done|]. by rewrite append_assoc. Qed.

Lemma writePair_Join (parts : list string) (p : string) :
  p <> "" -> Forall (fun q => q <> "") parts ->
  fold_left writePair parts p = Join (p :: parts) "&".
Proof.
  revert p. induction parts as [|q parts IH]; intros p Hp Hparts; [done|].
  inversion_clear Hparts as [|? ? Hq Hrest]. cbn [fold_left].
  assert ((0 <? len p)%Z = true) as -> by (by destruct p).
  rewrite IH; [|by destruct p|done].
  rewrite append_assoc, !Join_prepend. reflexivity.
Qed.

Lemma fold_writePair_Join (parts : list string) :
  Forall (fun q => q <> "") parts ->
  fold_left writePair parts "" = Join parts "&".
Proof.
  destruct parts as [|p parts]; [done|]. intros Hparts.
  inversion_clear Hparts as [|? ? Hp Hrest]. cbn [fold_left].
  change (if (0 <? len "")%Z then "" +:+ "&" else "") with "".
  rewrite append_nil_l. by apply writePair_Join.
Qed.

Lemma pairsOf_not_empty (v : Url.Values) (keys : list string) :
  Forall (fun q => q <> "") (Url.pairsOf v keys).
Proof.
  unfold Url.pairsOf. apply List.Forall_forall. intros q Hq.
  apply in_flat_map in Hq as (k & _ & Hq).
  apply in_map_iff in Hq as (value & <- & _). apply append_not_empty.
Qed.

Lemma pairsOf_app (v : Url.Values) (keys1 keys2 : list string) :
  Url.pairsOf v (keys1 ++ keys2)%list
  = (Url.pairsOf v keys1 ++ Url.pairsOf v keys2)%list.
Proof. unfold Url.pairsOf. apply flat_map_app. Qed.

Lemma fold_values (keyEscaped : string) (vs : list string) (buf : string) :
  fold_left
    (fun buf value =>
       (if (0 <? len buf)%Z then buf +:+ "&" else buf)
         +:+ keyEscaped +:+ "=" +:+ Url.QueryEscape value)
    vs buf
  = fold_left writePair
      (map (fun value => keyEscaped +:+ "=" +:+ Url.QueryEscape value) vs) buf.
Proof. revert buf. induction vs as [|value vs IH]; intros buf; cbn; auto. Qed.

Lemma fold_keys (v : Url.Values) (keys : list string) (buf : string) :
  fold_left
    (fun buf k =>
       let vs := default [] (v !! k) in
       let keyEscaped := Url.QueryEscape k in
       fold_left
         (fun buf value =>
            (if (0 <? len buf)%Z then buf +:+ "&" else buf)
              +:+ keyEscaped +:+ "=" +:+ Url.QueryEscape value)
         vs buf)
    keys buf
  = fold_left writePair (Url.pairsOf v keys) buf.
Proof.
  revert buf. induction keys as [|k keys IH]; intros buf; [done|].
  cbn [fold_left]. cbv zeta. rewrite IH, fold_values.
  change (k :: keys) with ([k] ++ keys)%list. rewrite pairsOf_app, fold_left_app.
  do 2 f_equal. unfold Url.pairsOf. cbn [flat_map]. by rewrite app_nil_r.
Qed.

(** [Encode] writes the pairs of the sorted keys, joined by ['&']. *)
Lemma Encode_Join (v : Url.Values) :
  Url.Encode v = Join (Url.pairsOf v (Url.sortedKeys v)) "&".
Proof.
  unfold Url.Encode. rewrite fold_keys.
  apply fold_writePair_Join, pairsOf_not_empty.
Qed.

Lemma sortedKeys_elem (v : Url.Values) (k : string) :
  k ∈ Url.sortedKeys v <-> is_Some (v !! k).
Proof.
  unfold Url.sortedKeys. rewrite merge_sort_Permutation.
  rewrite list_elem_of_fmap. split.
  - intros ([k' x] & -> & Hin). apply elem_of_map_to_list in Hin. by exists x.
  - intros [x Hx]. exists (k, x). split; [done|]. by apply elem_of_map_to_list.
Qed.

Lemma sortedKeys_NoDup (v : Url.Values) : NoDup (Url.sortedKeys v).
Proof.
  unfold Url.sortedKeys. rewrite merge_sort_Permutation.
  apply NoDup_fst_map_to_list.
Qed.

Lemma Join_not_empty (parts : list string) (p sep : string) :
  p ∈ parts -> p <> "" -> Join parts sep <> "".
Proof.
  intros Hin Hp. induction parts as [|q parts IH]; [by apply elem_of_nil in Hin|].
  apply elem_of_cons in Hin as [<-|Hin].
  - destruct parts; cbn [Join]; [done|]. by destruct p.
  - specialize (IH Hin).
    destruct parts as [|r parts]; [by apply elem_of_nil in Hin|].
    cbn [Join] in *. intros Heq. destruct q; [|done].
    rewrite append_nil_l in Heq. destruct sep; [|done].
    by rewrite append_nil_l in Heq.
Qed.

Lemma upperhex_not_amp (n : N) : Url.upperhex n <> "&"%char.
Proof.
  unfold Url.upperhex. generalize (N.to_nat n). intros m.
  do 16 (destruct m as [|m]; [discriminate|]). discriminate.
Qed.

(** An escaped value holds no ['&']: it cannot start another parameter. *)
Lemma QueryEscape_no_amp (s : string) : Index (Url.QueryEscape s) "&" = -1.
Proof.
  unfold Url.QueryEscape. induction s as [|c s IH]; [done|].
  cbn [Url.escape]. destruct (Ascii.eqb c " " && true)%bool.
  { by apply Index_cons_none. }
  destruct (Url.shouldEscape c Url.encodeQueryComponent) eqn:Hc.
  - repeat (apply Index_cons_none; split;
            [first [discriminate | apply upperhex_not_amp]|]).
    exact IH.
  - apply Index_cons_none. split; [|exact IH]. by intros ->.
Qed.

Lemma Split_none (s : string) (c : ascii) :
  Index s c = -1 -> Split s c = [s].
Proof.
  induction s as [|a s IH]; [done|]. intros Hs.
  apply Index_cons_none in Hs as [Ha Hs]. cbn [Split].
  destruct (Ascii.eqb_spec a c); [done|]. by rewrite IH.
Qed.

Lemma Split_app (s t : string) (c : ascii) :
  Index s c = -1 -> Split (s +:+ String c t) c = s :: Split t c.
Proof.
  induction s as [|a s IH]; intros Hs.
  - rewrite append_nil_l. cbn [Split]. by rewrite Ascii.eqb_refl.
  - apply Index_cons_none in Hs as [Ha Hs].
    rewrite append_cons. cbn [Split].
    destruct (Ascii.eqb_spec a c); [done|]. by rewrite IH.
Qed.

Lemma Index_append_none (s t : string) (c : ascii) :
  Index s c = -1 -> Index t c = -1 -> Index (s +:+ t) c = -1.
Proof.
  intros Hs Ht. induction s as [|a s IH]; [done|].
  apply Index_cons_none in Hs as [Ha Hs]. rewrite append_cons.
  apply Index_cons_none. auto.
Qed.

(** [dsn.String()] for the URL the builder fills. *)
Lemma URL_String_tcp (host port rawQuery : string) :
  rawQuery <> "" ->
  Url.URL_String {| Url.Scheme := "tcp"; Url.Host := host +:+ ":" +:+ port;
                    Url.RawQuery := rawQuery |}
  = "tcp://" +:+ Url.escape (host +:+ ":" +:+ port) Url.encodeHost
      +:+ "?" +:+ rawQuery.
Proof.
  intros Hq. unfold Url.URL_String. cbn [Url.Scheme Url.Host Url.RawQuery].
  rewrite eqb_append_empty.
  assert ((rawQuery =? "") = false) as -> by (by destruct rawQuery).
  cbn [negb orb String.eqb]. rewrite !append_assoc. reflexivity.
Qed.

End BuilderFacts.

Section Builder.

Variable config : ClickhouseDriverConfig.

(** The [no_delay] entry is written after every entry that could replace
    it: the later statements set other keys. *)
Lemma queryValues_no_delay :
  queryValues config !! "no_delay"
  = Some [Strconv.FormatBool (negb (Nagle config))].
Proof.
  unfold queryValues, Url.Set_. cbv zeta.
  rewrite lookup_insert_ne by done.
  repeat match goal with
         | |- context [if ?b then <[_ := _]> _ else _] =>
             destruct b; [rewrite lookup_insert_ne by done|]
         | |- <["no_delay" := _]> _ !! "no_delay" = _ =>
             apply lookup_insert_eq
         end.
Qed.

(** With the optional fields empty, exactly three entries are set. *)
Lemma queryValues_minimal :
  Username config = "" -> Password config = "" ->
  ReadTimeout config = 0 -> WriteTimeout config = 0 ->
  AltHosts config = [] -> ConnectionOpenStrategy config = "" ->
  BlockSize config <= 0 ->
  queryValues config
  = <["debug" := [Strconv.FormatBool (Debug config)]]>
      (<["no_delay" := [Strconv.FormatBool (negb (Nagle config))]]>
         (<["database" := [Database config]]> ∅)).
Proof.
  intros HU HP HR HW HA HC HB. unfold queryValues, Url.Set_.
  rewrite HU, HP, HR, HW, HA, HC. cbn [String.eqb negb Z.eqb length Z.of_nat Z.ltb Z.compare].
  by destruct (Z.ltb_spec 0 (BlockSize config)); [lia|].
Qed.

End Builder.

(** C8: when the optional fields of the configuration are empty, the query
    component of the connection string holds the three parameters
    [database], [debug] and [no_delay] and no other: these are the keys set,
    the query component splits at ['&'] into their three pairs, and the
    connection string is the host followed by them. *)
Theorem ClickhouseBuildQueryString_minimal :
  forall config : ClickhouseDriverConfig,
    Username config = "" -> Password config = "" ->
    ReadTimeout config = 0 -> WriteTimeout config = 0 ->
    AltHosts config = [] -> ConnectionOpenStrategy config = "" ->
    BlockSize config <= 0 ->
    dom (queryValues config) = ({["database"; "no_delay"; "debug"]} : gset string)
    /\ Strings.Split (Url.Encode (queryValues config)) "&"
       = ["database=" +:+ Url.QueryEscape (Database config);
          "debug=" +:+ Strconv.FormatBool (Debug config);
          "no_delay=" +:+ Strconv.FormatBool (negb (Nagle config))]
    /\ ClickhouseBuildQueryString config
       = "tcp://"
           +:+ Url.escape (Host config +:+ ":" +:+ Strconv.Itoa (Port config))
                 Url.encodeHost
           +:+ "?database=" +:+ Url.QueryEscape (Database config)
           +:+ "&debug=" +:+ Strconv.FormatBool (Debug config)
           +:+ "&no_delay=" +:+ Strconv.FormatBool (negb (Nagle config)).
Proof.
  intros config HU HP HR HW HA HC HB.
  pose proof (queryValues_minimal config HU HP HR HW HA HC HB) as Hq.
  assert (Url.sortedKeys (queryValues config) = ["database"; "debug"; "no_delay"])
    as Hkeys by (rewrite Hq; vm_compute; reflexivity).
  assert (Url.Encode (queryValues config)
          = "database=" +:+ Url.QueryEscape (Database config)
              +:+ "&debug=" +:+ Strconv.FormatBool (Debug config)
              +:+ "&no_delay=" +:+ Strconv.FormatBool (negb (Nagle config)))
    as Henc.
  { rewrite Encode_Join, Hkeys, Hq. unfold Url.pairsOf. cbn [flat_map].
    repeat (rewrite lookup_insert_eq || rewrite lookup_insert_ne by done).
    by destruct (Debug config), (Nagle config). }
  split; [|split].
  - rewrite Hq, !dom_insert_L, dom_empty_L. set_solver.
  - rewrite Henc.
    change ("database=" +:+ Url.QueryEscape (Database config)
              +:+ "&debug=" +:+ Strconv.FormatBool (Debug config)
              +:+ "&no_delay=" +:+ Strconv.FormatBool (negb (Nagle config)))
      with (("database=" +:+ Url.QueryEscape (Database config))
              +:+ String "&" (("debug=" +:+ Strconv.FormatBool (Debug config))
              +:+ String "&"
                    ("no_delay=" +:+ Strconv.FormatBool (negb (Nagle config))))).
    rewrite Split_app
      by (apply Index_append_none; [done|apply QueryEscape_no_amp]).
    by destruct (Debug config), (Nagle config).
  - unfold ClickhouseBuildQueryString. rewrite URL_String_tcp, Henc; [done|].
    rewrite Henc. discriminate.
Qed.

Lemma ClickhouseBuildQueryString_minimal_witness :
  ClickhouseBuildQueryString
    (mkConfig "" "" "shop" "localhost" 9000 0 0 true [] "" 0 false false false)
  = "tcp://localhost:9000?database=shop&debug=false&no_delay=false".
Proof.
  apply (proj2 (proj2 (ClickhouseBuildQueryString_minimal
                  (mkConfig "" "" "shop" "localhost" 9000 0 0 true [] "" 0
                     false false false)
                  eq_refl eq_refl eq_refl eq_refl eq_refl eq_refl
                  ltac:(cbn; lia)))).
Defined.

(** C9: for every configuration the [no_delay] parameter of the connection
    string is the negation of the [Nagle] flag, as [strconv.FormatBool]
    writes it; the parameter occurs once, between the pairs of the keys
    sorted before and after it. *)
Theorem no_delay_negates_Nagle :
  forall config : ClickhouseDriverConfig,
    queryValues config !! "no_delay"
    = Some [Strconv.FormatBool (negb (Nagle config))]
    /\ exists before after : list string,
        Url.sortedKeys (queryValues config) = (before ++ "no_delay" :: after)%list
        /\ ("no_delay" ∉ before) /\ ("no_delay" ∉ after)
        /\ ClickhouseBuildQueryString config
           = "tcp://"
               +:+ Url.escape (Host config +:+ ":" +:+ Strconv.Itoa (Port config))
                     Url.encodeHost
               +:+ "?"
               +:+ Strings.Join
                     (Url.pairsOf (queryValues config) before
                        ++ ("no_delay=" +:+ Strconv.FormatBool (negb (Nagle config)))
                        :: Url.pairsOf (queryValues config) after)%list
                     "&".
Proof.
  intros config. pose proof (queryValues_no_delay config) as Hnd.
  split; [exact Hnd|].
  assert ("no_delay" ∈ Url.sortedKeys (queryValues config)) as Hin
    by (apply sortedKeys_elem; eauto).
  apply list_elem_of_split in Hin as (before & after & Hkeys).
  pose proof (sortedKeys_NoDup (queryValues config)) as Hnodup.
  rewrite Hkeys in Hnodup. apply NoDup_app in Hnodup as (_ & Hbefore & Hafter).
  apply NoDup_cons in Hafter as [Hafter _].
  exists before, after. split; [exact Hkeys|]. split.
  { intros Hb. apply (Hbefore _ Hb). left. }
  split; [exact Hafter|].
  assert (Url.pairsOf (queryValues config) ["no_delay"]
          = ["no_delay=" +:+ Strconv.FormatBool (negb (Nagle config))]) as Hpair.
  { unfold Url.pairsOf. cbn [flat_map]. rewrite Hnd.
    by destruct (Nagle config). }
  assert (Url.Encode (queryValues config)
          = Strings.Join
              (Url.pairsOf (queryValues config) before
                 ++ ("no_delay=" +:+ Strconv.FormatBool (negb (Nagle config)))
                 :: Url.pairsOf (queryValues config) after)%list "&") as Henc.
  { rewrite Encode_Join, Hkeys.
    change (before ++ "no_delay" :: after)%list
      with (before ++ ["no_delay"] ++ after)%list.
    by rewrite !pairsOf_app, Hpair. }
  unfold ClickhouseBuildQueryString. rewrite URL_String_tcp, Henc; [done|].
  rewrite Henc.
  apply (Join_not_empty _ ("no_delay=" +:+ Strconv.FormatBool (negb (Nagle config)))).
  - apply elem_of_app. right. left.
  - discriminate.
Qed.

(* ===================================================================== *)
(** * Further properties of the type translator *)
(* ===================================================================== *)

(** One step through two nested [switch]es: a test met before is replaced
    by its outcome, a new one is split. *)
Ltac switch_step g c :=
  cbn [DBType setType orb];
  match goal with
  | H : ?b = _ |- context [?b] => rewrite H
  | |- context [DBType c =? ?t] => destruct (DBType c =? t) eqn:?
  | |- context [TinyintAsBool g] => destruct (TinyintAsBool g) eqn:?
  end.

(** X2: translating a translated column changes nothing. *)
Theorem TranslateColumnType_idempotent :
  forall (g : Globals) (c : Column),
    TranslateColumnType g (TranslateColumnType g c) = TranslateColumnType g c.
Proof.
  intros g c. unfold TranslateColumnType. cbv zeta.
  repeat switch_step g c; reflexivity.
Qed.

Lemma TranslateColumnType_UInt8_witness :
  Type_ (TranslateColumnType (mkGlobals false true)
           (mkColumn "seen" "" "UInt8" "UInt8" "")) = "bool".
Proof.
  apply (TranslateColumnType_UInt8 (mkGlobals false true)
           (mkColumn "seen" "" "UInt8" "UInt8" "")).
  reflexivity.
Defined.

(** X4: the package flags matter for [UInt8] columns only: a column of any
    other base type is translated the same under all settings. *)
Theorem TranslateColumnType_flags_only_UInt8 :
  forall (g1 g2 : Globals) (c : Column),
    DBType c <> "UInt8" ->
    TranslateColumnType g1 c = TranslateColumnType g2 c.
Proof.
  intros g1 g2 c Hc. apply String.eqb_neq in Hc.
  unfold TranslateColumnType. cbv zeta. by rewrite Hc.
Qed.

Lemma TranslateColumnType_flags_only_UInt8_witness :
  TranslateColumnType (mkGlobals true true) (mkColumn "n" "" "Int8" "Int8" "")
  = TranslateColumnType (mkGlobals false false) (mkColumn "n" "" "Int8" "Int8" "").
Proof.
  apply (TranslateColumnType_flags_only_UInt8 (mkGlobals true true)
           (mkGlobals false false) (mkColumn "n" "" "Int8" "Int8" "")).
  discriminate.
Defined.

(* ===================================================================== *)
(** * Further properties of the catalog operations *)
(* ===================================================================== *)

Section NormalizeFacts.

Import Strings.

Lemma truncateAtParen_prefix (raw : string) :
  exists suffix, raw = truncateAtParen raw +:+ suffix.
Proof.
  induction raw as [|a raw [suffix IH]]; [by exists ""|].
  cbn [truncateAtParen]. destruct (Ascii.eqb a "(").
  - by exists (String a raw).
  - exists suffix. by rewrite append_cons, <- IH.
Qed.

Lemma truncateAtParen_no_paren (raw : string) :
  Index (truncateAtParen raw) "(" = -1.
Proof.
  induction raw as [|a raw IH]; [done|]. cbn [truncateAtParen].
  destruct (Ascii.eqb_spec a "("); [done|].
  by apply Index_cons_none.
Qed.

Lemma normalizeType_prefix (raw : string) :
  exists suffix, raw = normalizeType raw +:+ suffix.
Proof.
  rewrite normalizeType_spec. destruct (startsWithParen raw).
  - exists "". induction raw as [|a raw IH]; [done|].
    by rewrite append_cons, <- IH.
  - apply truncateAtParen_prefix.
Qed.

Lemma normalizeType_empty (raw : string) :
  normalizeType raw = "" -> raw = "".
Proof.
  rewrite normalizeType_spec. destruct raw as [|a raw]; [done|].
  cbn [startsWithParen truncateAtParen]. by destruct (Ascii.eqb a "(").
Qed.

End NormalizeFacts.

(** X5: the base type of every listed column is a prefix of its raw type,
    and it is empty only when the raw type is empty: a raw type is never
    cut down to nothing. *)
Theorem Columns_base_type_prefix :
  forall (db : DB) (database tableName : string) (cols : list Column) (c : Column),
    Columns db database tableName = Ok cols ->
    In c cols ->
    (exists suffix, FullDBType c = DBType c +:+ suffix)
    /\ (DBType c = "" -> FullDBType c = "").
Proof.
  intros db database tableName cols c Hcols Hin.
  assert (DBType c = normalizeType (FullDBType c)) as ->.
  { revert c Hin. apply List.Forall_forall.
    apply (Columns_Forall db (fun c => DBType c = normalizeType (FullDBType c))
             database tableName); [reflexivity|exact Hcols]. }
  split; [apply normalizeType_prefix|apply normalizeType_empty].
Qed.

Lemma Columns_base_type_prefix_witness :
  exists suffix, "Array(String)" = "Array" +:+ suffix.
Proof.
  apply (proj1 (Columns_base_type_prefix (oneColumnCatalog "tags" "Array(String)")
                  "shop" "orders"
                  [mkColumn "tags" "" "Array" "Array(String)" ""]
                  (mkColumn "tags" "" "Array" "Array(String)" "")
                  eq_refl (or_introl eq_refl))).
Defined.

(** X6: normalizing a normalized type changes nothing. *)
Theorem normalizeType_idempotent :
  forall raw : string, normalizeType (normalizeType raw) = normalizeType raw.
Proof.
  intros raw. rewrite (normalizeType_spec raw).
  destruct (startsWithParen raw) eqn:Hstart.
  - rewrite normalizeType_spec. by rewrite Hstart.
  - unfold normalizeType. by rewrite truncateAtParen_no_paren.
Qed.

Section ListingFacts.

Variable db : DB.

Lemma Scan3_Ok (r : Row) (a b c : string) :
  Scan3 r = Ok (a, b, c) -> r = [Some a; Some b; Some c].
Proof.
  destruct r as [|[x|] [|[y|] [|[z|] [|w r]]]]; cbn; try done.
  by intros [= -> -> ->].
Qed.

Lemma Scan1_Ok (r : Row) (a : string) : Scan1 r = Ok a -> r = [Some a].
Proof.
  destruct r as [|[x|] [|w r]]; cbn; try done. by intros [= ->].
Qed.

Lemma scanColumns_cells (tableName : string)
      (cells : list (string * string * string)) (acc : list Column) :
  scanColumns tableName (map rowOfCells cells) acc
  = Ok (acc ++ map columnOfCells cells)%list.
Proof.
  revert acc. induction cells as [|[[a b] c] cells IH]; intros acc.
  - cbn. by rewrite app_nil_r.
  - cbn [map rowOfCells scanColumns Scan3 scanCell]. rewrite IH.
    by rewrite <- app_assoc.
Qed.

Lemma scanColumns_rows (tableName : string) (rows : list Row)
      (acc cols : list Column) :
  scanColumns tableName rows acc = Ok cols ->
  exists new, cols = (acc ++ new)%list /\ rows = map rowOfColumn new
              /\ Forall (fun c => Type_ c = "") new.
Proof.
  revert acc. induction rows as [|r rows IH]; intros acc; cbn [scanColumns].
  - intros [= <-]. exists []. by rewrite app_nil_r.
  - destruct (Scan3 r) as [[[a b] c]|err] eqn:Hscan; [|done].
    intros Hrest. apply IH in Hrest as (new & -> & -> & Hnew).
    apply Scan3_Ok in Hscan as ->.
    eexists (_ :: new). rewrite <- app_assoc. split; [reflexivity|].
    split; [reflexivity|]. by constructor.
Qed.

Lemma scanColumns_failure (tableName : string)
      (good : list (string * string * string)) (bad : Row) (rest : list Row)
      (acc : list Column) (e : error) :
  Scan3 bad = Err e ->
  scanColumns tableName (map rowOfCells good ++ bad :: rest) acc
  = Err (Wrapped e ("unable to scan for table " +:+ tableName)).
Proof.
  intros Hbad. revert acc. induction good as [|[[a b] c] good IH]; intros acc.
  - cbn [map app scanColumns]. by rewrite Hbad.
  - cbn [map app rowOfCells scanColumns Scan3 scanCell]. apply IH.
Qed.

Lemma scanNames_names (names acc : list string) :
  scanNames (map nameRow names) acc = Ok (acc ++ names)%list.
Proof.
  revert acc. induction names as [|n names IH]; intros acc.
  - cbn. by rewrite app_nil_r.
  - cbn [map nameRow scanNames Scan1 scanCell]. rewrite IH.
    by rewrite <- app_assoc.
Qed.

Lemma scanNames_failure (good : list string) (bad : Row) (rest : list Row)
      (acc : list string) (e : error) :
  Scan1 bad = Err e ->
  scanNames (map nameRow good ++ bad :: rest) acc = Err e.
Proof.
  intros Hbad. revert acc. induction good as [|n good IH]; intros acc.
  - cbn [map app scanNames]. by rewrite Hbad.
  - cbn [map app nameRow scanNames Scan1 scanCell]. apply IH.
Qed.

Lemma countByte_app (c : ascii) (s t : string) :
  countByte c (s +:+ t) = (countByte c s + countByte c t)%nat.
Proof.
  induction s as [|a s IH]; [done|].
  rewrite append_cons. cbn [countByte]. rewrite IH. lia.
Qed.

Lemma countByte_placeholders (n : nat) :
  countByte "?" (Strings.Join (replicate (S n) "?") ",") = S n.
Proof.
  induction n as [|n IH]; [done|].
  change (Strings.Join (replicate (S (S n)) "?") ",")
    with ("?" +:+ "," +:+ Strings.Join (replicate (S n) "?") ",").
  rewrite !countByte_app, IH. reflexivity.
Qed.

Lemma tableNamesQuery_blacklist_only (database b : string) (blacklist : list string) :
  tableNamesQuery database [] (b :: blacklist)
  = ("select name from system.tables where database = ? and database <> 'system'"
       +:+ " and name not in ("
       +:+ Strings.Join (replicate (S (length blacklist)) "?") "," +:+ ");",
     database :: b :: blacklist).
Proof.
  unfold tableNamesQuery.
  change (0 <? Z.of_nat (length []))%Z with false.
  change (0 <? Z.of_nat (length (b :: blacklist)))%Z with true. cbv iota.
  rewrite fold_left_snoc. cbn [app]. do 3 f_equal.
  rewrite <- Repeat_placeholders. reflexivity.
Qed.

End ListingFacts.

(** X7: when every row of the column listing has its three cells, [Columns]
    returns one column per row, in the order of the rows, with the name, the
    raw type and the default copied from the row, the base type normalized
    and the translated type left empty; an error that ended the iteration
    early is not looked at. *)
Theorem Columns_lists_rows :
  forall (db : DB) (database tableName : string)
         (cells : list (string * string * string)) (err : option error),
    Query db columnsQuery [tableName; database]
    = Ok (mkRows (map rowOfCells cells) err) ->
    Columns db database tableName = Ok (map columnOfCells cells).
Proof.
  intros db database tableName cells err Hq. unfold Columns. rewrite Hq.
  cbn [rowsData]. apply scanColumns_cells.
Qed.

Lemma Columns_lists_rows_witness :
  Columns (fixedCatalog [[Some "id"; Some "UInt64"; Some ""];
                         [Some "code"; Some "FixedString(3)"; Some "'abc'"]]
             (Some (DriverError "connection reset")))
    "shop" "orders"
  = Ok [mkColumn "id" "" "UInt64" "UInt64" "";
        mkColumn "code" "" "FixedString" "FixedString(3)" "'abc'"].
Proof.
  apply (Columns_lists_rows _ "shop" "orders"
           [("id", "UInt64", ""); ("code", "FixedString(3)", "'abc'")]
           (Some (DriverError "connection reset"))).
  reflexivity.
Defined.

(** X8: a successful column listing accounts for every row: the rows of the
    catalog are exactly the rows of the columns returned, none dropped or
    reordered, and no column carries a translated type yet. *)
Theorem Columns_accounts_for_rows :
  forall (db : DB) (database tableName : string) (cols : list Column),
    Columns db database tableName = Ok cols ->
    exists rows : Rows,
      Query db columnsQuery [tableName; database] = Ok rows
      /\ rowsData rows = map rowOfColumn cols
      /\ Forall (fun c => Type_ c = "") cols.
Proof.
  intros db database tableName cols. unfold Columns.
  destruct (Query db columnsQuery [tableName; database]) as [rows|err]; [|done].
  intros Hscan. apply scanColumns_rows in Hscan as (new & -> & Hrows & Hnew).
  exists rows. by rewrite app_nil_l.
Qed.

Lemma Columns_accounts_for_rows_witness :
  exists rows : Rows,
    Query (oneColumnCatalog "id" "UInt64") columnsQuery ["orders"; "shop"] = Ok rows
    /\ rowsData rows = map rowOfColumn [mkColumn "id" "" "UInt64" "UInt64" ""]
    /\ Forall (fun c => Type_ c = "") [mkColumn "id" "" "UInt64" "UInt64" ""].
Proof.
  apply (Columns_accounts_for_rows (oneColumnCatalog "id" "UInt64")
           "shop" "orders" [mkColumn "id" "" "UInt64" "UInt64" ""]).
  reflexivity.
Defined.

(** X9: the first row of the column listing that cannot be scanned (a NULL
    cell, a wrong number of cells) makes [Columns] fail as a whole: the
    columns read so far are dropped and the scan error is returned wrapped
    with the table name. *)
Theorem Columns_scan_failure :
  forall (db : DB) (database tableName : string)
         (good : list (string * string * string)) (bad : Row) (rest : list Row)
         (err : option error) (e : error),
    Query db columnsQuery [tableName; database]
    = Ok (mkRows (map rowOfCells good ++ bad :: rest) err) ->
    Scan3 bad = Err e ->
    Columns db database tableName
    = Err (Wrapped e ("unable to scan for table " +:+ tableName)).
Proof.
  intros db database tableName good bad rest err e Hq Hbad.
  unfold Columns. rewrite Hq. cbn [rowsData]. by apply scanColumns_failure.
Qed.

Lemma Columns_scan_failure_witness :
  Columns (fixedCatalog [[Some "id"; Some "UInt64"; Some ""];
                         [Some "note"; Some "String"; None]] None)
    "shop" "orders"
  = Err (Wrapped (DriverError "converting NULL to string is unsupported")
           "unable to scan for table orders").
Proof.
  apply (Columns_scan_failure _ "shop" "orders" [("id", "UInt64", "")]
           [Some "note"; Some "String"; None] [] None
           (DriverError "converting NULL to string is unsupported"));
    reflexivity.
Defined.

(** X10: when every row of the table listing holds one name, [TableNames]
    returns the names in the order of the rows, whatever the filters; an
    error that ended the iteration early is not reported. *)
Theorem TableNames_lists_names :
  forall (db : DB) (database : string) (whitelist blacklist names : list string)
         (err : option error),
    Query db (fst (tableNamesQuery database whitelist blacklist))
             (snd (tableNamesQuery database whitelist blacklist))
    = Ok (mkRows (map nameRow names) err) ->
    TableNames db database whitelist blacklist = Ok names.
Proof.
  intros db database whitelist blacklist names err. unfold TableNames.
  destruct (tableNamesQuery database whitelist blacklist) as [query args].
  cbn [fst snd]. intros ->. cbn [rowsData]. apply scanNames_names.
Qed.

Lemma TableNames_lists_names_witness :
  TableNames (fixedCatalog [[Some "orders"]; [Some "users"]]
                (Some (DriverError "connection reset")))
    "shop" [] ["audit"]
  = Ok ["orders"; "users"].
Proof.
  apply (TableNames_lists_names _ "shop" [] ["audit"] ["orders"; "users"]
           (Some (DriverError "connection reset"))).
  reflexivity.
Defined.

(** X11: the first row of the table listing that cannot be scanned makes
    [TableNames] fail as a whole, with the scan error as it is (not
    wrapped). *)
Theorem TableNames_scan_failure :
  forall (db : DB) (database : string) (whitelist blacklist good : list string)
         (bad : Row) (rest : list Row) (err : option error) (e : error),
    Query db (fst (tableNamesQuery database whitelist blacklist))
             (snd (tableNamesQuery database whitelist blacklist))
    = Ok (mkRows (map nameRow good ++ bad :: rest) err) ->
    Scan1 bad = Err e ->
    TableNames db database whitelist blacklist = Err e.
Proof.
  intros db database whitelist blacklist good bad rest err e. unfold TableNames.
  destruct (tableNamesQuery database whitelist blacklist) as [query args].
  cbn [fst snd]. intros -> Hbad. cbn [rowsData]. by apply scanNames_failure.
Qed.

Lemma TableNames_scan_failure_witness :
  TableNames (fixedCatalog [[Some "orders"]; [None]; [Some "users"]] None)
    "shop" [] []
  = Err (DriverError "converting NULL to string is unsupported").
Proof.
  apply (TableNames_scan_failure _ "shop" [] [] ["orders"] [None]
           [[Some "users"]] None
           (DriverError "converting NULL to string is unsupported"));
    reflexivity.
Defined.

(** X12: without a whitelist the table listing excludes the blacklist: the
    text is the fixed [select] followed by [and name not in] with one [?]
    per blacklist name, and the arguments are the database name followed by
    the blacklist names; with both lists empty the text is the fixed
    [select] alone, with the database name as only argument. *)
Theorem tableNamesQuery_without_whitelist :
  forall (database : string) (blacklist : list string),
    tableNamesQuery database [] []
    = ("select name from system.tables where database = ? and database <> 'system'",
       [database])
    /\ (blacklist <> [] ->
        tableNamesQuery database [] blacklist
        = ("select name from system.tables where database = ? and database <> 'system'"
             +:+ " and name not in ("
             +:+ Strings.Join (replicate (length blacklist) "?") "," +:+ ");",
           database :: blacklist)).
Proof.
  intros database blacklist. split; [reflexivity|].
  destruct blacklist as [|b blacklist]; [done|]. intros _.
  apply tableNamesQuery_blacklist_only.
Qed.

Lemma tableNamesQuery_without_whitelist_witness :
  tableNamesQuery "shop" [] ["audit"; "tmp"]
  = ("select name from system.tables where database = ? and database <> 'system' and name not in (?,?);",
     ["shop"; "audit"; "tmp"]).
Proof.
  apply (proj2 (tableNamesQuery_without_whitelist "shop" ["audit"; "tmp"])).
  discriminate.
Defined.

(** X13: the query text of the table listing has exactly one [?] for each
    argument passed with it, whatever the database name and the filters. *)
Theorem tableNamesQuery_placeholders :
  forall (database : string) (whitelist blacklist : list string),
    countByte "?" (fst (tableNamesQuery database whitelist blacklist))
    = length (snd (tableNamesQuery database whitelist blacklist)).
Proof.
  intros database [|w whitelist] [|b blacklist].
  - reflexivity.
  - rewrite tableNamesQuery_blacklist_only. cbn [fst snd length].
    rewrite !countByte_app, countByte_placeholders. cbn. lia.
  - rewrite tableNamesQuery_whitelist. cbn [fst snd length].
    rewrite !countByte_app, countByte_placeholders. cbn. lia.
  - rewrite tableNamesQuery_whitelist. cbn [fst snd length].
    rewrite !countByte_app, countByte_placeholders. cbn. lia.
Qed.

(* ===================================================================== *)
(** * Further properties of the engine-string parser *)
(* ===================================================================== *)

Section ParserAccepts.

Import Strings.

Lemma Index_app_none (s t : string) (c : ascii) :
  Index (s +:+ t) c = -1 <-> Index s c = -1 /\ Index t c = -1.
Proof.
  induction s as [|a s IH]; [rewrite append_nil_l; tauto|].
  rewrite append_cons, !Index_cons_none. tauto.
Qed.

Lemma parseUintLoop_bounds (s : string) (n v : Z) :
  0 <= n -> Strconv.parseUintLoop s n = (v, None) -> 0 <= v.
Proof.
  revert n. induction s as [|c s IH]; intros n Hn; cbn [Strconv.parseUintLoop].
  - by intros [= <-].
  - destruct (Z.ltb_spec (Z.of_N (N_of_ascii c) - 48) 0) as [|Hlo]; [done|].
    destruct (9 <? _)%Z; [done|]. cbn [orb].
    destruct (_ <=? n)%Z; [done|]. destruct (_ <? _)%Z; [done|].
    apply IH. lia.
Qed.

(** What [Atoi] accepts fits a 64-bit [int]. *)
Lemma Atoi_range (s : string) (n : Z) :
  Strconv.Atoi s = Ok n -> - 2 ^ 63 <= n < 2 ^ 63.
Proof.
  unfold Strconv.Atoi, Strconv.ParseInt. destruct s as [|c s]; [done|].
  destruct (Strconv.ParseUint _) as [un [[]|]] eqn:Hparse; [done| |].
  - apply ParseUint_range in Hparse as ->. by destruct (Ascii.eqb c "-").
  - assert (0 <= un) as Hun.
    { revert Hparse. unfold Strconv.ParseUint.
      destruct (if (_ || _)%bool then s else String c s); [done|].
      by apply parseUintLoop_bounds. }
    destruct (Ascii.eqb c "-"); cbn [negb andb].
    + destruct (Z.ltb_spec (2 ^ 63) un); [done|]. intros [= <-]. lia.
    + destruct (Z.leb_spec (2 ^ 63) un); [done|]. intros [= <-]. lia.
Qed.

Lemma TrimLeft_after_comma (rest : string) :
  Index rest "," = -1 -> LastIndex (TrimLeft (String "," rest) ", ") "," = -1.
Proof.
  intros Hrest. apply LastIndex_none_iff.
  destruct (TrimLeft_suffix (String "," rest) ", ") as [pre Hpre].
  assert (TrimLeft (String "," rest) ", " = TrimLeft rest ", ") as Hdrop
    by reflexivity.
  rewrite Hdrop. destruct (TrimLeft_suffix rest ", ") as [pre' Hpre'].
  rewrite Hpre' in Hrest. by apply Index_app_none in Hrest as [_ Htrim].
Qed.

End ParserAccepts.

(** X14: when the parser succeeds, the input is the engine name, a ['('] and
    more; the name holds no ['('] and the partitioning key no [',']; the
    body begins with the partitioning key and a comma; and the granularity
    is the number [strconv.Atoi] reads from the trailing field of the body,
    within the range of a 64-bit [int]. *)
Theorem parseEngine_success_shape :
  forall (str : string) (e : clickhouseEngine),
    parseEngine str = Ok e ->
    (exists rest, str = engineName e +:+ String "(" rest)
    /\ Strings.Index (engineName e) "(" = -1
    /\ Strings.Index (PartitioningKey e) "," = -1
    /\ (exists body more field,
          engineBody str = Some body
          /\ body = PartitioningKey e +:+ String "," more
          /\ trailingField body = Some field
          /\ Strconv.Atoi field = Ok (Granularity e))
    /\ - 2 ^ 63 <= Granularity e < 2 ^ 63.
Proof.
  intros str e. unfold parseEngine, engineBody.
  destruct (Z.eqb_spec (Strings.Index str "(") (-1)) as [|Hopen]; [done|].
  cbv zeta. set (body := Strings.Trim _ "() ").
  destruct (Z.eqb_spec (Strings.Index body ",") (-1)) as [|Hcomma]; [done|].
  match goal with
  | |- context [(Strings.LastIndex ?p "," =? -1)%Z] =>
      destruct (Z.eqb_spec (Strings.LastIndex p ",") (-1)) as [|Hlast]; [done|]
  end.
  destruct (Strconv.Atoi _) as [n|err] eqn:Hatoi; [|done]. intros [= <-].
  cbn [engineName PartitioningKey Granularity].
  destruct (Index_split str "(" Hopen) as (name & rest & Hstr & Hname & Hidx).
  destruct (Index_split body "," Hcomma) as (key & more & Hbody & Hkey & Hidx').
  assert (trailingField body = Some
            (Strings.Trim
               (Strings.sliceFrom
                  (Strings.TrimLeft
                     (Strings.sliceFrom body (Strings.Index body ",")) ", ")
                  (Strings.LastIndex
                     (Strings.TrimLeft
                        (Strings.sliceFrom body (Strings.Index body ",")) ", ")
                     ","))
               ", ")) as Hfield.
  { destruct (trailingField body) as [field|] eqn:Hsome.
    - apply granularity_field in Hsome as [_ [Hnone|Hsame]]; [done|].
      cbv zeta in Hsame. by rewrite Hsame.
    - unfold trailingField in Hsome.
      destruct (Z.eqb_spec (Strings.LastIndex body ",") (-1)) as [Hno|]; [|done].
      apply LastIndex_none_iff in Hno. done. }
  repeat split.
  - exists rest. rewrite Hidx. rewrite Hstr at 2. rewrite sliceTo_Index.
    exact Hstr.
  - rewrite Hidx. rewrite Hstr. by rewrite sliceTo_Index.
  - rewrite Hidx'. rewrite Hbody. by rewrite sliceTo_Index.
  - exists body, more. eexists. split; [done|]. split; [|split].
    + rewrite Hidx'. rewrite Hbody at 2. rewrite sliceTo_Index. exact Hbody.
    + exact Hfield.
    + exact Hatoi.
  - apply Atoi_range in Hatoi. lia.
  - apply Atoi_range in Hatoi. lia.
Qed.

Lemma parseEngine_success_shape_witness :
  Strings.Index "MergeTree" "(" = -1.
Proof.
  apply (proj1 (proj2 (parseEngine_success_shape
                         "MergeTree(EventDate, (CounterID, EventDate), 8192)"
                         (mkEngine "MergeTree" "EventDate"
                            ["CounterID"; "EventDate"] 8192)
                         ltac:(vm_compute; reflexivity)))).
Defined.

(** X15: an engine string whose body has one comma only is rejected with
    "granularity key not found", even when a partitioning key and an
    integer stand on the two sides of that comma. *)
Theorem parseEngine_single_comma :
  forall (str body : string),
    engineBody str = Some body ->
    Strings.Index body "," <> -1 ->
    Strings.LastIndex body "," = Strings.Index body "," ->
    parseEngine str = Err (ErrorString "granularity key not found").
Proof.
  intros str body. unfold engineBody, parseEngine.
  destruct (Strings.Index str "(" =? -1)%Z; [done|]. intros [= Hbody].
  cbv zeta. rewrite Hbody. intros Hcomma Hsame.
  destruct (Z.eqb_spec (Strings.Index body ",") (-1)) as [|_]; [done|].
  destruct (Index_split body "," Hcomma) as (key & more & -> & Hkey & Hidx).
  assert (Strings.Index more "," = -1) as Hmore.
  { destruct (Z.eq_dec (Strings.Index more ",") (-1)) as [|Hyes]; [done|].
    apply LastIndex_none_iff in Hkey.
    destruct (LastIndex_split more ",") as (pre & post & -> & Hpost).
    { by rewrite LastIndex_none_iff. }
    revert Hsame.
    replace (key +:+ String "," (pre +:+ String "," post))
      with ((key +:+ String "," pre) +:+ String "," post)
      by (by rewrite append_assoc).
    rewrite LastIndex_app by done.
    replace ((key +:+ String "," pre) +:+ String "," post)
      with (key +:+ String "," (pre +:+ String "," post))
      by (by rewrite append_assoc).
    rewrite Hidx.
    replace (key +:+ String "," pre) with ((key +:+ String "," "") +:+ pre)
      by (by rewrite append_assoc).
    intros Hlen. apply Nat2Z.inj in Hlen.
    assert (forall s t, String.length (s +:+ t)
                        = (String.length s + String.length t)%nat) as Happ.
    { intros s t. induction s as [|a s IH]; [done|].
      rewrite append_cons. cbn [String.length]. by rewrite IH. }
    rewrite !Happ in Hlen. cbn [String.length] in Hlen. lia. }
  rewrite Hidx, sliceFrom_Index, TrimLeft_after_comma by done.
  reflexivity.
Qed.

Lemma parseEngine_single_comma_witness :
  parseEngine "MergeTree(EventDate, 8192)"
  = Err (ErrorString "granularity key not found").
Proof.
  apply (parseEngine_single_comma "MergeTree(EventDate, 8192)" "EventDate, 8192");
    [reflexivity | discriminate | reflexivity].
Defined.

(** X16: the parser fails on exactly four shapes of input: no ['('], a body
    without comma, no comma left after the partitioning key, or a trailing
    field that is not an integer; every other string is parsed. *)
Theorem parseEngine_fails_iff :
  forall str : string,
    isErr (parseEngine str)
    = noOpenBracket str || bodyWithoutComma str || granularityMissing str
      || trailingFieldNotInteger str.
Proof.
  intros str.
  unfold noOpenBracket, bodyWithoutComma, granularityMissing,
    trailingFieldNotInteger, engineBody, parseEngine.
  destruct (Z.eqb_spec (Strings.Index str "(") (-1)) as [|Hopen]; [done|].
  cbv zeta. cbn [orb]. set (body := Strings.Trim _ "() ").
  destruct (Z.eqb_spec (Strings.Index body ",") (-1)) as [Hno|Hcomma]; [done|].
  cbn [orb].
  destruct (trailingField body) as [field|] eqn:Hfield.
  - apply granularity_field in Hfield as [_ Hrest]. cbv zeta in Hrest.
    destruct (Z.eqb_spec (Strings.LastIndex
      (Strings.TrimLeft (Strings.sliceFrom body (Strings.Index body ",")) ", ")
      ",") (-1)) as [|Hlast]; [done|].
    destruct Hrest as [Hnone| ->]; [done|]. cbn [orb].
    destruct (Strconv.Atoi field) as [n|err] eqn:Hatoi; cbn [isErr].
    + apply Atoi_accepts_only_integers in Hatoi. by rewrite Hatoi.
    + by rewrite orb_true_r.
  - unfold trailingField in Hfield.
    destruct (Z.eqb_spec (Strings.LastIndex body ",") (-1)) as [Hlast|]; [|done].
    by apply LastIndex_none_iff in Hlast.
Qed.

Section TrimSpaceFacts.

Import Strings.

Local Abbreviation rev := (revString "").

Lemma length_append (s t : string) :
  String.length (s +:+ t) = (String.length s + String.length t)%nat.
Proof.
  induction s as [|a s IH]; [done|].
  rewrite append_cons. cbn [String.length]. by rewrite IH.
Qed.

Lemma revString_acc (acc s : string) : revString acc s = rev s +:+ acc.
Proof.
  revert acc. induction s as [|a s IH]; intros acc; [done|].
  cbn [revString]. rewrite IH, (IH (String a "")).
  by rewrite append_assoc.
Qed.

Lemma rev_cons (a : ascii) (s : string) : rev (String a s) = rev s +:+ String a "".
Proof. cbn [revString]. apply revString_acc. Qed.

Lemma rev_app (s t : string) : rev (s +:+ t) = rev t +:+ rev s.
Proof.
  induction s as [|a s IH].
  - rewrite append_nil_l. cbn [revString].
    induction (rev t) as [|b r IHr]; [done|]. by rewrite append_cons, <- IHr.
  - rewrite append_cons, !rev_cons, IH. by rewrite append_assoc.
Qed.

Lemma rev_involutive (s : string) : rev (rev s) = s.
Proof.
  induction s as [|a s IH]; [done|]. by rewrite rev_cons, rev_app, IH.
Qed.

Lemma rev_no_sep (s : string) (c : ascii) : Index s c = -1 -> Index (rev s) c = -1.
Proof.
  induction s as [|a s IH]; [done|]. intros Hs.
  apply Index_cons_none in Hs as [Ha Hs]. rewrite rev_cons.
  apply Index_app_none. split; [by apply IH|]. by apply Index_cons_none.
Qed.

(** One step of the two trimming loops: the argument is returned as it is,
    or it begins with the bytes [pre] of a white-space rune and the loop
    goes on past them. *)
Lemma trimLeftSpace_step (s : string) :
  trimLeftSpace s = s
  \/ exists pre r, pre <> "" /\ s = pre +:+ r
                   /\ forall t, trimLeftSpace (pre +:+ t) = trimLeftSpace t.
Proof.
  destruct s as [|a r1]; [by left|].
  destruct (isSpace1 a) eqn:E1.
  { right. exists (String a ""), r1. repeat split; [done|].
    intros t. rewrite append_cons, append_nil_l. cbn [trimLeftSpace].
    by rewrite E1. }
  destruct r1 as [|b r2]; [left; cbn [trimLeftSpace]; by rewrite E1|].
  destruct (isSpace2 a b) eqn:E2.
  { right. exists (String a (String b "")), r2. repeat split; [done|].
    intros t. rewrite !append_cons, append_nil_l. cbn [trimLeftSpace].
    by rewrite E1, E2. }
  destruct r2 as [|c r3]; [left; cbn [trimLeftSpace]; by rewrite E1, E2|].
  destruct (isSpace3 a b c) eqn:E3.
  { right. exists (String a (String b (String c ""))), r3.
    repeat split; [done|].
    intros t. rewrite !append_cons, append_nil_l. cbn [trimLeftSpace].
    by rewrite E1, E2, E3. }
  left. cbn [trimLeftSpace]. by rewrite E1, E2, E3.
Qed.

Lemma trimLeftSpaceRev_step (s : string) :
  trimLeftSpaceRev s = s
  \/ exists pre r, pre <> "" /\ s = pre +:+ r
                   /\ forall t, trimLeftSpaceRev (pre +:+ t) = trimLeftSpaceRev t.
Proof.
  destruct s as [|c r1]; [by left|].
  destruct (isSpace1 c) eqn:E1.
  { right. exists (String c ""), r1. repeat split; [done|].
    intros t. rewrite append_cons, append_nil_l. cbn [trimLeftSpaceRev].
    by rewrite E1. }
  destruct r1 as [|b r2]; [left; cbn [trimLeftSpaceRev]; by rewrite E1|].
  destruct (isSpace2 b c) eqn:E2.
  { right. exists (String c (String b "")), r2. repeat split; [done|].
    intros t. rewrite !append_cons, append_nil_l. cbn [trimLeftSpaceRev].
    by rewrite E1, E2. }
  destruct r2 as [|a r3]; [left; cbn [trimLeftSpaceRev]; by rewrite E1, E2|].
  destruct (isSpace3 a b c) eqn:E3.
  { right. exists (String c (String b (String a ""))), r3.
    repeat split; [done|].
    intros t. rewrite !append_cons, append_nil_l. cbn [trimLeftSpaceRev].
    by rewrite E1, E2, E3. }
  left. cbn [trimLeftSpaceRev]. by rewrite E1, E2, E3.
Qed.

Section Loop.

(** The facts shared by the two loops, from their one-step description. *)
Variable f : string -> string.
Hypothesis f_step :
  forall s, f s = s
            \/ exists pre r, pre <> "" /\ s = pre +:+ r
                             /\ forall t, f (pre +:+ t) = f t.

Lemma loop_induction (P : string -> Prop) :
  (forall s, (forall r, (String.length r < String.length s)%nat -> P r) -> P s) ->
  forall s, P s.
Proof.
  intros Hstep s.
  assert (forall n r, (String.length r < n)%nat -> P r) as H;
    [|apply (H (S (String.length s))); lia].
  induction n as [|n IH]; intros r Hr; [lia|].
  apply Hstep. intros r' Hr'. apply IH. lia.
Qed.

Lemma shorter_rest (pre r : string) :
  pre <> "" -> (String.length r < String.length (pre +:+ r))%nat.
Proof. intros Hpre. rewrite length_append. destruct pre; [done|cbn; lia]. Qed.

Lemma loop_length (s : string) : (String.length (f s) <= String.length s)%nat.
Proof.
  induction s as [s IH] using loop_induction.
  destruct (f_step s) as [->|(pre & r & Hpre & -> & Hskip)]; [done|].
  rewrite Hskip. pose proof (shorter_rest pre r Hpre).
  specialize (IH r ltac:(done)). lia.
Qed.

Lemma loop_suffix (s : string) : exists pre, s = pre +:+ f s.
Proof.
  induction s as [s IH] using loop_induction.
  destruct (f_step s) as [->|(pre & r & Hpre & -> & Hskip)]; [by exists ""|].
  rewrite Hskip.
  destruct (IH r (shorter_rest pre r Hpre)) as [pre' Hpre'].
  exists (pre +:+ pre'). by rewrite append_assoc, <- Hpre'.
Qed.

Lemma loop_idempotent (s : string) : f (f s) = f s.
Proof.
  induction s as [s IH] using loop_induction.
  destruct (f_step s) as [Hsame|(pre & r & Hpre & -> & Hskip)].
  - by rewrite !Hsame.
  - rewrite Hskip. apply IH. by apply shorter_rest.
Qed.

(** A text the loop leaves alone has no white space in front, and so have
    its prefixes. *)
Lemma loop_prefix (p x : string) : f (p +:+ x) = p +:+ x -> f p = p.
Proof.
  intros Hfix. destruct (f_step p) as [|(pre & r & Hpre & -> & Hskip)]; [done|].
  exfalso. rewrite append_assoc, Hskip in Hfix.
  pose proof (loop_length (r +:+ x)) as Hlen. rewrite Hfix in Hlen.
  pose proof (shorter_rest pre (r +:+ x) Hpre). lia.
Qed.

End Loop.

Lemma TrimSpace_trimmed (s : string) : TrimSpace (TrimSpace s) = TrimSpace s.
Proof.
  unfold TrimSpace.
  set (t := trimLeftSpace s). set (w := trimLeftSpaceRev (rev t)).
  assert (trimLeftSpace (rev w) = rev w) as Hleft.
  { destruct (loop_suffix _ trimLeftSpaceRev_step (rev t)) as [pre Hpre].
    fold w in Hpre. apply (loop_prefix _ trimLeftSpace_step _ (rev pre)).
    rewrite <- rev_app, <- Hpre, rev_involutive.
    apply (loop_idempotent _ trimLeftSpace_step). }
  rewrite Hleft, rev_involutive. unfold w.
  by rewrite (loop_idempotent _ trimLeftSpaceRev_step).
Qed.

Lemma TrimSpace_no_sep (s : string) (c : ascii) :
  Index s c = -1 -> Index (TrimSpace s) c = -1.
Proof.
  intros Hs. unfold TrimSpace. apply rev_no_sep.
  destruct (loop_suffix _ trimLeftSpaceRev_step (rev (trimLeftSpace s)))
    as [pre Hpre].
  assert (Index (rev (trimLeftSpace s)) c = -1) as Hrev.
  { apply rev_no_sep.
    destruct (loop_suffix _ trimLeftSpace_step s) as [pre' Hpre'].
    rewrite Hpre' in Hs. by apply Index_app_none in Hs as [_ ?]. }
  rewrite Hpre in Hrev. by apply Index_app_none in Hrev as [_ ?].
Qed.

Lemma Split_not_nil (s : string) (c : ascii) : Split s c <> [].
Proof.
  destruct s as [|a s]; [done|]. cbn [Split].
  destruct (Ascii.eqb a c); [done|]. by destruct (Split s c).
Qed.

Lemma Split_no_sep (s : string) (c : ascii) :
  Forall (fun field => Index field c = -1) (Split s c).
Proof.
  induction s as [|a s IH]; [by repeat constructor|]. cbn [Split].
  destruct (Ascii.eqb_spec a c) as [|Hne]; [by constructor|].
  destruct (Split s c) as [|h t].
  - repeat constructor. by apply Index_cons_none.
  - inversion_clear IH as [|? ? Hh Ht]. constructor; [|done].
    by apply Index_cons_none.
Qed.

(** The column list the parser builds from the text between the
    partitioning key and the granularity. *)
Lemma primaryKey_fields (primary : string) :
  map TrimSpace (Split primary ",") <> []
  /\ Forall (fun col => Index col "," = -1 /\ TrimSpace col = col)
            (map TrimSpace (Split primary ",")).
Proof.
  split.
  - pose proof (Split_not_nil primary ","). by destruct (Split primary ",").
  - apply List.Forall_map.
    eapply List.Forall_impl; [|apply (Split_no_sep primary ",")].
    intros field Hfield. split; [by apply TrimSpace_no_sep|].
    apply TrimSpace_trimmed.
Qed.

End TrimSpaceFacts.

(** X17: when the parser succeeds, the list of primary-key columns is not
    empty, no column name holds a comma, and every name is trimmed: trimming
    its white space again changes nothing. *)
Theorem parseEngine_primary_key_columns :
  forall (str : string) (e : clickhouseEngine),
    parseEngine str = Ok e ->
    enginePrimaryKey e <> []
    /\ Forall (fun col => Strings.Index col "," = -1
                          /\ Strings.TrimSpace col = col)
              (enginePrimaryKey e).
Proof.
  intros str e. unfold parseEngine.
  destruct (_ =? -1)%Z; [done|]. cbv zeta.
  destruct (_ =? -1)%Z; [done|]. destruct (_ =? -1)%Z; [done|].
  destruct (Strconv.Atoi _); [|done]. intros [= <-].
  cbn [enginePrimaryKey]. apply primaryKey_fields.
Qed.

Lemma parseEngine_primary_key_columns_witness :
  ["CounterID"; "EventDate"] <> [].
Proof.
  apply (proj1 (parseEngine_primary_key_columns
                  "MergeTree(EventDate, ( CounterID ,EventDate ), 8192)"
                  (mkEngine "MergeTree" "EventDate"
                     ["CounterID"; "EventDate"] 8192)
                  ltac:(vm_compute; reflexivity))).
Defined.

(* ===================================================================== *)
(** * Further properties of the primary-key lookup *)
(* ===================================================================== *)

(** X18: the primary-key lookup decides on the first row alone: with a name
    and an engine string in it, the answer is the key of that name with the
    columns parsed from the engine string, or the parse error wrapped with
    the engine string; later rows and an error that ended the iteration are
    not looked at. *)
Theorem PrimaryKeyInfo_first_row :
  forall (db : DB) (database table name engineFull : string)
         (rest : list Row) (err : option error),
    Query db primaryKeyQuery [table; database]
    = Ok (mkRows ([Some name; Some engineFull] :: rest) err) ->
    PrimaryKeyInfo db database table
    = match parseEngine engineFull with
      | Ok engine =>
          Ok (Some {| pkName := name; pkColumns := enginePrimaryKey engine |})
      | Err e => Err (Wrapped e ("bad engine=`" +:+ engineFull +:+ "`"))
      end.
Proof.
  intros db database table name engineFull rest err Hq.
  unfold PrimaryKeyInfo, QueryRow, RowScan2. rewrite Hq. reflexivity.
Qed.

Lemma PrimaryKeyInfo_first_row_witness :
  PrimaryKeyInfo
    (fixedCatalog [[Some "orders";
                    Some "MergeTree(EventDate, (CounterID, EventDate), 8192)"];
                   [Some "other"; Some "Log"]] None)
    "shop" "orders"
  = Ok (Some {| pkName := "orders"; pkColumns := ["CounterID"; "EventDate"] |}).
Proof.
  etransitivity.
  - apply (PrimaryKeyInfo_first_row _ "shop" "orders" "orders"
             "MergeTree(EventDate, (CounterID, EventDate), 8192)"
             [[Some "other"; Some "Log"]] None).
    reflexivity.
  - vm_compute. reflexivity.
Defined.

(** X19: a table whose engine string has no parameter list (no ['(']) is
    not reported as having no primary key: the lookup fails with "open
    bracket not found", wrapped with the engine string. *)
Theorem PrimaryKeyInfo_engine_without_parameters :
  forall (db : DB) (database table name engineFull : string)
         (rest : list Row) (err : option error),
    Query db primaryKeyQuery [table; database]
    = Ok (mkRows ([Some name; Some engineFull] :: rest) err) ->
    Strings.Index engineFull "(" = -1 ->
    PrimaryKeyInfo db database table
    = Err (Wrapped (ErrorString "open bracket not found")
             ("bad engine=`" +:+ engineFull +:+ "`")).
Proof.
  intros db database table name engineFull rest err Hq Hopen.
  unfold PrimaryKeyInfo, QueryRow, RowScan2. rewrite Hq. cbn.
  unfold parseEngine. by rewrite Hopen.
Qed.

Lemma PrimaryKeyInfo_engine_without_parameters_witness :
  PrimaryKeyInfo (fixedCatalog [[Some "events"; Some "Log"]] None) "shop" "events"
  = Err (Wrapped (ErrorString "open bracket not found") "bad engine=`Log`").
Proof.
  apply (PrimaryKeyInfo_engine_without_parameters _ "shop" "events" "events"
           "Log" [] None); reflexivity.
Defined.

(** X20: a primary key the lookup returns has at least one column, and its
    column names hold no comma and are trimmed. *)
Theorem PrimaryKeyInfo_columns :
  forall (db : DB) (database table : string) (pk : PrimaryKey),
    PrimaryKeyInfo db database table = Ok (Some pk) ->
    pkColumns pk <> []
    /\ Forall (fun col => Strings.Index col "," = -1
                          /\ Strings.TrimSpace col = col)
              (pkColumns pk).
Proof.
  intros db database table pk. unfold PrimaryKeyInfo.
  destruct (RowScan2 _) as [[name engineFull]|err].
  - unfold parseEngine.
    destruct (_ =? -1)%Z; [done|]. cbv zeta.
    destruct (_ =? -1)%Z; [done|]. destruct (_ =? -1)%Z; [done|].
    destruct (Strconv.Atoi _); [|done]. intros [= <-].
    cbn [pkColumns enginePrimaryKey]. apply primaryKey_fields.
  - by destruct (isErrNoRows err).
Qed.

Lemma PrimaryKeyInfo_columns_witness :
  ["CounterID"; "EventDate"] <> [].
Proof.
  apply (proj1 (PrimaryKeyInfo_columns
                  (fixedCatalog
                     [[Some "orders";
                       Some "MergeTree(EventDate, (CounterID, EventDate), 8192)"]]
                     None)
                  "shop" "orders"
                  {| pkName := "orders"; pkColumns := ["CounterID"; "EventDate"] |}
                  ltac:(vm_compute; reflexivity))).
Defined.

(* ===================================================================== *)
(** * Further properties of the connection-string builder *)
(* ===================================================================== *)

Section BuilderClosedForm.

Import Strings.

Lemma QueryEscape_cons_safe (c : ascii) (s : string) :
  Url.shouldEscape c Url.encodeQueryComponent = false ->
  Url.QueryEscape (String c s) = String c (Url.QueryEscape s).
Proof.
  intros Hc. unfold Url.QueryEscape. cbn [Url.escape]. rewrite Hc.
  destruct (Ascii.eqb_spec c " ") as [->|]; [done|]. reflexivity.
Qed.

Lemma QueryEscape_digits (d : Decimal.uint) :
  Url.QueryEscape (NilEmpty.string_of_uint d) = NilEmpty.string_of_uint d.
Proof.
  induction d as [|d IH|d IH|d IH|d IH|d IH|d IH|d IH|d IH|d IH|d IH];
    [done|..]; cbn [NilEmpty.string_of_uint];
    rewrite QueryEscape_cons_safe by reflexivity; by rewrite IH.
Qed.

(** A number in decimal needs no escaping. *)
Lemma QueryEscape_Itoa (i : Z) : Url.QueryEscape (Strconv.Itoa i) = Strconv.Itoa i.
Proof.
  unfold Strconv.Itoa. destruct (Z.to_int i) as [d|d];
    cbn [NilZero.string_of_int].
  - destruct d; try done; apply QueryEscape_digits.
  - rewrite QueryEscape_cons_safe by reflexivity. f_equal.
    destruct d; try done; apply QueryEscape_digits.
Qed.

Lemma QueryEscape_FormatBool (b : bool) :
  Url.QueryEscape (Strconv.FormatBool b) = Strconv.FormatBool b.
Proof. by destruct b. Qed.

End BuilderClosedForm.
Section BuilderParameters.

Import Strings.

(** [sort.Strings] orders by a total, transitive, antisymmetric relation, so
    the sorted list of a set of keys is unique. *)
Lemma leb_trans (s1 s2 s3 : string) :
  String.leb s1 s2 = true -> String.leb s2 s3 = true -> String.leb s1 s3 = true.
Proof.
  unfold String.leb. revert s2 s3.
  induction s1 as [|a s1 IH]; intros [|b s2] [|c s3]; cbn [String.compare];
    try done.
  unfold Ascii.compare.
  destruct (N.compare_spec (N_of_ascii a) (N_of_ascii b)) as [Hab|Hab|Hab];
    destruct (N.compare_spec (N_of_ascii b) (N_of_ascii c)) as [Hbc|Hbc|Hbc];
    destruct (N.compare_spec (N_of_ascii a) (N_of_ascii c)) as [Hac|Hac|Hac];
    try done; try lia.
  apply IH.
Qed.

#[local] Instance strLe_total : Total Url.strLe.
Proof.
  intros s1 s2. unfold Url.strLe.
  destruct (String.leb_total s1 s2) as [->| ->]; [by left|by right].
Qed.

#[local] Instance strLe_trans : Transitive Url.strLe.
Proof.
  intros s1 s2 s3. unfold Url.strLe. rewrite !Is_true_true. apply leb_trans.
Qed.

Lemma strLe_antisym (s1 s2 : string) :
  Url.strLe s1 s2 -> Url.strLe s2 s1 -> s1 = s2.
Proof.
  unfold Url.strLe. rewrite !Is_true_true. apply String.leb_antisym.
Qed.

Lemma sortedKeys_unique (v : Url.Values) (keys : list string) :
  StronglySorted Url.strLe keys -> NoDup keys ->
  (forall k, k ∈ keys <-> is_Some (v !! k)) ->
  Url.sortedKeys v = keys.
Proof.
  intros Hsorted Hnodup Hkeys.
  apply (StronglySorted_unique_strong Url.strLe).
  - intros k1 k2 _ _. apply strLe_antisym.
  - apply Sorted_StronglySorted; [apply _|].
    unfold Url.sortedKeys. apply Sorted_merge_sort. apply _.
  - exact Hsorted.
  - apply NoDup_Permutation; [apply sortedKeys_NoDup|exact Hnodup|].
    intros k. by rewrite sortedKeys_elem, Hkeys.
Qed.

(** The ten keys, each optional one under a flag, are in sorted order. *)
Lemma keys_sorted (bA bB bC bP bR bU bW : bool) :
  let keys := (optional bA "alt_hosts" ++ optional bB "block_size"
     ++ optional bC "connection_open_strategy"
     ++ ["database"; "debug"; "no_delay"]
     ++ optional bP "password" ++ optional bR "read_timeout"
     ++ optional bU "username" ++ optional bW "write_timeout")%list in
  StronglySorted Url.strLe keys /\ NoDup keys.
Proof.
  destruct bA, bB, bC, bP, bR, bU, bW; cbn [optional app]; split;
    by apply (bool_decide_unpack _); vm_compute.
Qed.

Lemma lookup_if_eq (b : bool) (k : string) (x : list string) (q : Url.Values) :
  (if b then <[k := x]> q else q) !! k = if b then Some x else q !! k.
Proof. destruct b; [apply lookup_insert_eq|done]. Qed.

Lemma lookup_if_ne (b : bool) (k k' : string) (x : list string) (q : Url.Values) :
  k' <> k -> (if b then <[k' := x]> q else q) !! k = q !! k.
Proof. intros Hne. destruct b; [by apply lookup_insert_ne|done]. Qed.

Lemma is_Some_if_insert (b : bool) (k k' : string) (x : list string)
      (q : Url.Values) :
  is_Some ((if b then <[k' := x]> q else q) !! k)
  <-> (b = true /\ k = k') \/ is_Some (q !! k).
Proof.
  destruct b.
  - rewrite lookup_insert_is_Some'. split.
    + intros [->|?]; auto.
    + intros [[_ ->]|?]; auto.
  - split; [auto|]. by intros [[? _]|?].
Qed.

Lemma is_Some_insert (k k' : string) (x : list string) (q : Url.Values) :
  is_Some (<[k' := x]> q !! k) <-> k = k' \/ is_Some (q !! k).
Proof.
  rewrite lookup_insert_is_Some'. split; (intros [->|?]; [by left|by right]).
Qed.

Lemma elem_of_optional (b : bool) (k x : string) :
  k ∈ optional b x <-> b = true /\ k = x.
Proof.
  destruct b; cbn [optional].
  - rewrite list_elem_of_singleton. split; [done|by intros [_ ?]].
  - rewrite elem_of_nil. split; [done|by intros [? _]].
Qed.

Variable config : ClickhouseDriverConfig.

(** The keys [Encode] writes, in its order. *)
Lemma queryValues_sortedKeys :
  Url.sortedKeys (queryValues config)
  = (optional (0 <? Z.of_nat (length (AltHosts config)))%Z "alt_hosts"
     ++ optional (0 <? BlockSize config)%Z "block_size"
     ++ optional (negb (ConnectionOpenStrategy config =? ""))
          "connection_open_strategy"
     ++ ["database"; "debug"; "no_delay"]
     ++ optional (negb (Password config =? "")) "password"
     ++ optional (negb (ReadTimeout config =? 0)%Z) "read_timeout"
     ++ optional (negb (Username config =? "")) "username"
     ++ optional (negb (WriteTimeout config =? 0)%Z) "write_timeout")%list.
Proof.
  apply sortedKeys_unique; [apply keys_sorted..|].
  intros k. unfold queryValues, Url.Set_. cbv zeta.
  rewrite !elem_of_app, !elem_of_optional, !elem_of_cons, elem_of_nil.
  repeat (rewrite is_Some_insert || rewrite is_Some_if_insert).
  rewrite lookup_empty. pose proof (@is_Some_None (list string)). tauto.
Qed.

(** What the map holds under each key. *)
Ltac lookup_chain :=
  unfold queryValues, Url.Set_; cbv zeta;
  repeat first [ rewrite lookup_insert_eq
               | rewrite lookup_if_eq
               | rewrite lookup_insert_ne by done
               | rewrite lookup_if_ne by done
               | rewrite lookup_empty ];
  reflexivity.

Lemma lookup_alt_hosts :
  queryValues config !! "alt_hosts"
  = if (0 <? Z.of_nat (length (AltHosts config)))%Z
    then Some [Join (AltHosts config) ","] else None.
Proof. lookup_chain. Qed.

Lemma lookup_block_size :
  queryValues config !! "block_size"
  = if (0 <? BlockSize config)%Z
    then Some [Strconv.Itoa (BlockSize config)] else None.
Proof. lookup_chain. Qed.

Lemma lookup_connection_open_strategy :
  queryValues config !! "connection_open_strategy"
  = if negb (ConnectionOpenStrategy config =? "")
    then Some [ConnectionOpenStrategy config] else None.
Proof. lookup_chain. Qed.

Lemma lookup_database :
  queryValues config !! "database" = Some [Database config].
Proof. lookup_chain. Qed.

Lemma lookup_debug :
  queryValues config !! "debug" = Some [Strconv.FormatBool (Debug config)].
Proof. lookup_chain. Qed.

Lemma lookup_password :
  queryValues config !! "password"
  = if negb (Password config =? "") then Some [Password config] else None.
Proof. lookup_chain. Qed.

Lemma lookup_read_timeout :
  queryValues config !! "read_timeout"
  = if negb (ReadTimeout config =? 0)%Z
    then Some [Strconv.Itoa (ReadTimeout config)] else None.
Proof. lookup_chain. Qed.

Lemma lookup_username :
  queryValues config !! "username"
  = if negb (Username config =? "") then Some [Username config] else None.
Proof. lookup_chain. Qed.

Lemma lookup_write_timeout :
  queryValues config !! "write_timeout"
  = if negb (WriteTimeout config =? 0)%Z
    then Some [Strconv.Itoa (WriteTimeout config)] else None.
Proof. lookup_chain. Qed.

Lemma pairsOf_optional (b : bool) (k x : string) :
  queryValues config !! k = (if b then Some [x] else None) ->
  Url.QueryEscape k = k ->
  Url.pairsOf (queryValues config) (optional b k)
  = optional b (k +:+ "=" +:+ Url.QueryEscape x).
Proof.
  intros Hk Hesc. destruct b; [|done].
  unfold Url.pairsOf. cbn [optional flat_map]. rewrite Hk, Hesc. reflexivity.
Qed.

Lemma pairsOf_present (k x : string) :
  queryValues config !! k = Some [x] ->
  Url.QueryEscape k = k ->
  Url.pairsOf (queryValues config) [k] = [k +:+ "=" +:+ Url.QueryEscape x].
Proof. apply (pairsOf_optional true). Qed.

(** The pairs [Encode] writes are the parameters of the closed form. *)
Lemma queryValues_pairs :
  Url.pairsOf (queryValues config) (Url.sortedKeys (queryValues config))
  = connectionParameters config.
Proof.
  rewrite queryValues_sortedKeys. unfold connectionParameters.
  change ["database"; "debug"; "no_delay"]
    with (["database"] ++ ["debug"] ++ ["no_delay"])%list.
  rewrite !pairsOf_app.
  rewrite (pairsOf_optional _ _ _ lookup_alt_hosts) by reflexivity.
  rewrite (pairsOf_optional _ _ _ lookup_block_size) by reflexivity.
  rewrite (pairsOf_optional _ _ _ lookup_connection_open_strategy) by reflexivity.
  rewrite (pairsOf_present _ _ lookup_database) by reflexivity.
  rewrite (pairsOf_present _ _ lookup_debug) by reflexivity.
  rewrite (pairsOf_present _ _ (queryValues_no_delay config)) by reflexivity.
  rewrite (pairsOf_optional _ _ _ lookup_password) by reflexivity.
  rewrite (pairsOf_optional _ _ _ lookup_read_timeout) by reflexivity.
  rewrite (pairsOf_optional _ _ _ lookup_username) by reflexivity.
  rewrite (pairsOf_optional _ _ _ lookup_write_timeout) by reflexivity.
  rewrite !QueryEscape_Itoa, !QueryEscape_FormatBool. reflexivity.
Qed.

Lemma connectionParameters_not_nil : connectionParameters config <> [].
Proof.
  unfold connectionParameters, optional.
  by destruct (0 <? _)%Z, (0 <? _)%Z, (negb _).
Qed.

Lemma Encode_parameters :
  Url.Encode (queryValues config) = Join (connectionParameters config) "&".
Proof. by rewrite Encode_Join, queryValues_pairs. Qed.

Lemma Encode_not_empty : Url.Encode (queryValues config) <> "".
Proof.
  rewrite Encode_parameters.
  apply (Join_not_empty _ ("database=" +:+ Url.QueryEscape (Database config)));
    [|done].
  unfold connectionParameters. rewrite !elem_of_app. do 3 right. left. left.
Qed.

Lemma pair_no_amp (key value : string) :
  Index key "&" = -1 -> Index value "&" = -1 -> Index (key +:+ value) "&" = -1.
Proof. intros Hk Hv. by apply Index_append_none. Qed.

Lemma connectionParameters_no_amp :
  Forall (fun pair => Index pair "&" = -1) (connectionParameters config).
Proof.
  assert (forall i, Index (Strconv.Itoa i) "&" = -1) as Hnum
    by (intros i; rewrite <- QueryEscape_Itoa; apply QueryEscape_no_amp).
  assert (forall b, Index (Strconv.FormatBool b) "&" = -1) as Hbool
    by (by intros []).
  unfold connectionParameters, optional. rewrite !Forall_app.
  repeat split;
    repeat match goal with
           | |- Forall _ (if ?b then _ else _) => destruct b
           | |- Forall _ (_ :: _) => constructor
           | |- Forall _ [] => constructor
           end;
    apply pair_no_amp; first [done | apply QueryEscape_no_amp | apply Hnum | apply Hbool].
Qed.

Lemma Split_Join (parts : list string) (c : ascii) :
  parts <> [] -> Forall (fun part => Index part c = -1) parts ->
  Split (Join parts (String c "")) c = parts.
Proof.
  induction parts as [|p parts IH]; [done|]. intros _ Hparts.
  inversion_clear Hparts as [|? ? Hp Hrest].
  destruct parts as [|q parts]; [by apply Split_none|].
  change (Join (p :: q :: parts) (String c ""))
    with (p +:+ String c (Join (q :: parts) (String c ""))).
  rewrite Split_app by done. f_equal. by apply IH.
Qed.

Lemma upperhex_not_question (n : N) : Url.upperhex n <> "?"%char.
Proof.
  unfold Url.upperhex. generalize (N.to_nat n). intros m.
  do 16 (destruct m as [|m]; [discriminate|]). discriminate.
Qed.

(** An escaped host holds no ['?']. *)
Lemma escape_host_no_question (s : string) :
  Index (Url.escape s Url.encodeHost) "?" = -1.
Proof.
  induction s as [|c s IH]; [done|]. cbn [Url.escape].
  rewrite andb_false_r.
  destruct (Url.shouldEscape c Url.encodeHost) eqn:Hc.
  - repeat (apply Index_cons_none; split;
            [first [discriminate | apply upperhex_not_question]|]).
    exact IH.
  - apply Index_cons_none. split; [|exact IH]. by intros ->.
Qed.

Lemma Index_first (pre post : string) (c : ascii) :
  Index pre c = -1 ->
  Index (pre +:+ String c post) c = Z.of_nat (String.length pre).
Proof.
  induction pre as [|a pre IH]; intros Hpre.
  - rewrite append_nil_l. cbn. by rewrite Ascii.eqb_refl.
  - apply Index_cons_none in Hpre as [Ha Hpre].
    rewrite append_cons. cbn [Index String.length].
    destruct (Ascii.eqb_spec a c); [done|]. rewrite IH by done.
    destruct (Z.ltb_spec (Z.of_nat (String.length pre)) 0); lia.
Qed.

Lemma build_form :
  ClickhouseBuildQueryString config
  = "tcp://"
      +:+ Url.escape (Host config +:+ ":" +:+ Strconv.Itoa (Port config))
            Url.encodeHost
      +:+ "?" +:+ Url.Encode (queryValues config).
Proof.
  unfold ClickhouseBuildQueryString. apply URL_String_tcp, Encode_not_empty.
Qed.

End BuilderParameters.

(** X21: the connection string in closed form: [tcp://], the escaped
    [host:port], a [?], and the parameters joined by [&] in the byte order
    of their keys: [alt_hosts], [block_size], [connection_open_strategy],
    [database], [debug], [no_delay], [password], [read_timeout], [username],
    [write_timeout], each optional one present exactly under its test, the
    free-text values escaped. *)
Theorem ClickhouseBuildQueryString_closed_form :
  forall config : ClickhouseDriverConfig,
    ClickhouseBuildQueryString config
    = "tcp://"
        +:+ Url.escape (Host config +:+ ":" +:+ Strconv.Itoa (Port config))
              Url.encodeHost
        +:+ "?" +:+ Strings.Join (connectionParameters config) "&".
Proof.
  intros config. by rewrite build_form, Encode_parameters.
Qed.

(** X22: however the fields are chosen, cutting the query component at
    every ['&'] gives back the parameters of the closed form, one piece for
    each: no field value can add a parameter or break one up. *)
Theorem query_component_splits :
  forall config : ClickhouseDriverConfig,
    Strings.Split (Url.Encode (queryValues config)) "&"
    = connectionParameters config.
Proof.
  intros config. rewrite Encode_parameters.
  apply Split_Join;
    [apply connectionParameters_not_nil|apply connectionParameters_no_amp].
Qed.

(** X23: the first ['?'] of the connection string is the one before the
    query component: cutting the string there gives back [tcp://] with the
    escaped [host:port] on one side and the encoded parameters on the
    other, whatever the host holds. *)
Theorem connection_string_cut :
  forall config : ClickhouseDriverConfig,
    let s := ClickhouseBuildQueryString config in
    let authority :=
      "tcp://" +:+ Url.escape (Host config +:+ ":" +:+ Strconv.Itoa (Port config))
                     Url.encodeHost in
    Strings.Index s "?" = Strings.len authority
    /\ Strings.sliceTo s (Strings.Index s "?") = authority
    /\ Strings.sliceFrom s (Strings.Index s "?" + 1)
       = Url.Encode (queryValues config).
Proof.
  intros config. cbv zeta. rewrite build_form.
  set (host := Url.escape _ Url.encodeHost).
  assert (Strings.Index ("tcp://" +:+ host) "?" = -1) as Hfree.
  { apply Index_append_none; [done|apply escape_host_no_question]. }
  replace ("tcp://" +:+ host +:+ "?" +:+ Url.Encode (queryValues config))
    with (("tcp://" +:+ host) +:+ String "?" (Url.Encode (queryValues config)))
    by (by rewrite append_assoc).
  rewrite Index_first by done. unfold Strings.len.
  split; [done|]. split; [apply sliceTo_Index|apply sliceFrom_after].
Qed.

(** X24: the [Secure] and [SkipVerify] fields have no effect on the
    connection string: two configurations that agree on the other fields
    give the same string. *)
Theorem ClickhouseBuildQueryString_ignores_secure :
  forall c1 c2 : ClickhouseDriverConfig,
    Username c1 = Username c2 -> Password c1 = Password c2 ->
    Database c1 = Database c2 -> Host c1 = Host c2 -> Port c1 = Port c2 ->
    ReadTimeout c1 = ReadTimeout c2 -> WriteTimeout c1 = WriteTimeout c2 ->
    Nagle c1 = Nagle c2 -> AltHosts c1 = AltHosts c2 ->
    ConnectionOpenStrategy c1 = ConnectionOpenStrategy c2 ->
    BlockSize c1 = BlockSize c2 -> Debug c1 = Debug c2 ->
    ClickhouseBuildQueryString c1 = ClickhouseBuildQueryString c2.
Proof.
  intros c1 c2 HU HP HD HH HPo HR HW HN HA HC HB HDe.
  unfold ClickhouseBuildQueryString, queryValues.
  by rewrite HU, HP, HD, HH, HPo, HR, HW, HN, HA, HC, HB, HDe.
Qed.

Lemma ClickhouseBuildQueryString_ignores_secure_witness :
  ClickhouseBuildQueryString
    (mkConfig "u" "" "shop" "db1" 9000 0 0 false [] "" 0 false true true)
  = ClickhouseBuildQueryString
      (mkConfig "u" "" "shop" "db1" 9000 0 0 false [] "" 0 false false false).
Proof.
  apply (ClickhouseBuildQueryString_ignores_secure
           (mkConfig "u" "" "shop" "db1" 9000 0 0 false [] "" 0 false true true)
           (mkConfig "u" "" "shop" "db1" 9000 0 0 false [] "" 0 false false false));
    reflexivity.
Defined.

(* ===================================================================== *)
(** * Properties of the test harness *)
(* ===================================================================== *)

(** X25: the harness opens its connection at most once: after a call of
    [conn] that succeeded, every further call returns the same handle and
    leaves the tester as it is, without opening anything; after a call that
    failed, no handle is kept and the other fields are unchanged, so the
    next call tries again. *)
Theorem conn_opens_once :
  forall (sqlOpen sqlOpen' : string -> string -> result DB)
         (m m' : Tester.clickhouseTester) (r : result DB),
    Tester.conn sqlOpen m = (r, m') ->
    match r with
    | Ok h => Tester.dbConn m' = Some h
              /\ Tester.conn sqlOpen' m' = (Ok h, m')
    | Err _ => Tester.dbConn m' = None
               /\ Tester.conn sqlOpen' m' = Tester.conn sqlOpen' m
    end.
Proof.
  intros sqlOpen sqlOpen' m m' r. unfold Tester.conn at 1.
  destruct (Tester.dbConn m) as [h|] eqn:Hconn.
  - intros [= <- <-]. split; [done|]. unfold Tester.conn. by rewrite Hconn.
  - destruct (sqlOpen _ _) as [h|err]; intros [= <- <-].
    + split; [done|]. reflexivity.
    + split; [done|]. unfold Tester.conn. cbn. rewrite Hconn.
      destruct m; cbn in *. by subst.
Qed.

Lemma conn_opens_once_witness :
  Tester.conn openFails
    (Tester.setConn
       (Tester.mkTester None "shop" "localhost" "" "" 9000 false false "shop_test")
       (Some emptyCatalog))
  = (Ok emptyCatalog,
     Tester.setConn
       (Tester.mkTester None "shop" "localhost" "" "" 9000 false false "shop_test")
       (Some emptyCatalog)).
Proof.
  apply (proj2 (conn_opens_once openEmpty openFails
                  (Tester.mkTester None "shop" "localhost" "" "" 9000 false false
                     "shop_test")
                  _ (Ok emptyCatalog) eq_refl)).
Defined.

(** X26: the connection string the harness opens: the test database, debug
    off, [no_delay=true] (Nagle is left off), and the password and the user
    name when they are not empty; the [secure] setting of the harness does
    not reach the string. *)
Theorem conn_connection_string :
  forall m : Tester.clickhouseTester,
    ClickhouseBuildQueryString (Tester.connConfig m)
    = "tcp://"
        +:+ Url.escape (Tester.host m +:+ ":" +:+ Strconv.Itoa (Tester.port m))
              Url.encodeHost
        +:+ "?"
        +:+ Strings.Join
              (["database=" +:+ Url.QueryEscape (Tester.testDBName m);
                "debug=false"; "no_delay=true"]
               ++ optional (negb (Tester.password m =? ""))
                    ("password=" +:+ Url.QueryEscape (Tester.password m))
               ++ optional (negb (Tester.username m =? ""))
                    ("username=" +:+ Url.QueryEscape (Tester.username m)))%list
              "&".
Proof.
  intros m. rewrite build_form, Encode_parameters.
  unfold connectionParameters, Tester.connConfig.
  cbn [Username Password Database Host Port ReadTimeout WriteTimeout Nagle
       AltHosts ConnectionOpenStrategy BlockSize Debug].
  cbn [length Z.of_nat Z.ltb Z.compare Z.eqb String.eqb negb optional app
       Strconv.FormatBool].
  by rewrite app_nil_r.
Qed.

(* ===================================================================== *)
(** * Properties of the FixedString type *)
(* ===================================================================== *)

Section TrimFacts.

Import Strings.

Variable cutset : string.

Lemma TrimLeft_idempotent (s : string) :
  TrimLeft (TrimLeft s cutset) cutset = TrimLeft s cutset.
Proof.
  induction s as [|a s IH]; [done|]. cbn [TrimLeft].
  destruct (inCutset a cutset) eqn:Ha; [done|]. cbn [TrimLeft]. by rewrite Ha.
Qed.

Lemma TrimLeft_head (a : ascii) (s : string) :
  TrimLeft (String a s) cutset = String a s -> inCutset a cutset = false.
Proof.
  cbn [TrimLeft]. destruct (inCutset a cutset); [|done]. intros Heq.
  destruct (TrimLeft_suffix s cutset) as [pre Hpre].
  apply (f_equal String.length) in Hpre. rewrite Heq, length_append in Hpre.
  cbn [String.length] in Hpre. lia.
Qed.

Lemma TrimRight_idempotent (s : string) :
  TrimRight (TrimRight s cutset) cutset = TrimRight s cutset.
Proof.
  induction s as [|a s IH]; [done|]. cbn [TrimRight].
  destruct (TrimRight s cutset) as [|b r] eqn:Hr.
  - destruct (inCutset a cutset) eqn:Ha; [done|]. cbn [TrimRight]. by rewrite Ha.
  - cbn [TrimRight]. cbn [TrimRight] in IH. by rewrite IH.
Qed.

Lemma TrimRight_keeps_head (s : string) :
  TrimLeft s cutset = s ->
  TrimLeft (TrimRight s cutset) cutset = TrimRight s cutset.
Proof.
  destruct s as [|a s]; [done|]. intros Hfix.
  apply TrimLeft_head in Hfix. cbn [TrimRight].
  destruct (TrimRight s cutset); rewrite ?Hfix; cbn [TrimLeft]; by rewrite Hfix.
Qed.

Lemma Trim_idempotent (s : string) :
  Trim (Trim s cutset) cutset = Trim s cutset.
Proof.
  unfold Trim.
  rewrite TrimRight_keeps_head by apply TrimLeft_idempotent.
  apply TrimRight_idempotent.
Qed.

(** A run of cutset bytes, here written [pad], vanishes at both ends. *)
Variable pad : string.
Hypothesis pad_in_cutset : TrimLeft pad cutset = "".

Lemma TrimRight_pad : TrimRight pad cutset = "".
Proof.
  revert pad_in_cutset. clear. induction pad as [|a p IH]; [done|].
  cbn [TrimLeft TrimRight]. destruct (inCutset a cutset) eqn:Ha.
  - intros Hp. by rewrite IH.
  - done.
Qed.

Lemma TrimLeft_app_pad (s : string) :
  TrimLeft (pad +:+ s) cutset = TrimLeft s cutset.
Proof.
  revert pad_in_cutset. clear. induction pad as [|a p IH]; [done|].
  rewrite append_cons. cbn [TrimLeft].
  destruct (inCutset a cutset); [exact IH|done].
Qed.

Lemma TrimRight_app_pad (s : string) :
  TrimRight (s +:+ pad) cutset = TrimRight s cutset.
Proof.
  induction s as [|a s IH]; [apply TrimRight_pad|].
  rewrite append_cons. cbn [TrimRight]. by rewrite IH.
Qed.

Lemma Trim_app_pad (s : string) :
  Trim (s +:+ pad) cutset = Trim s cutset.
Proof.
  unfold Trim. induction s as [|a s IH].
  - rewrite append_nil_l, pad_in_cutset. reflexivity.
  - rewrite append_cons. cbn [TrimLeft].
    destruct (inCutset a cutset); [exact IH|].
    rewrite <- append_cons. apply TrimRight_app_pad.
Qed.

End TrimFacts.

Lemma TrimLeft_zeros (n : nat) :
  Strings.TrimLeft (Strings.Repeat Types.nul n) Types.nul = "".
Proof. induction n as [|n IH]; [done|]. exact IH. Qed.

(** X27: trimming the zero bytes of a FixedString twice is trimming them
    once: the trimmed text neither begins nor ends with a zero byte. *)
Theorem trimZero_idempotent :
  forall str : Types.FixedString,
    Types.trimZero (Types.trimZero str) = Types.trimZero str.
Proof. intros str. apply Trim_idempotent. Qed.

(** X28: zero bytes put before and after a text, as many as one likes, are
    dropped: the padded text trims to what the text itself trims to. *)
Theorem trimZero_padding :
  forall (str : Types.FixedString) (m n : nat),
    Types.trimZero (Strings.Repeat Types.nul m +:+ str
                      +:+ Strings.Repeat Types.nul n)
    = Types.trimZero str.
Proof.
  intros str m n. unfold Types.trimZero. rewrite <- append_assoc.
  rewrite (Trim_app_pad Types.nul (Strings.Repeat Types.nul n))
    by apply TrimLeft_zeros.
  unfold Strings.Trim.
  by rewrite (TrimLeft_app_pad Types.nul (Strings.Repeat Types.nul m))
    by apply TrimLeft_zeros.
Qed.

(** X29: [Value] and [Scan] round trip: scanning the value of a FixedString
    into any receiver succeeds and stores the trimmed text of the original,
    and a source that is not a string is refused with the receiver left as
    it was. *)
Theorem Scan_Value_round_trip :
  forall str receiver : Types.FixedString,
    (exists v, Types.Value str = Ok v
               /\ Types.Scan receiver v = (Types.String_ str, None))
    /\ Types.Scan receiver Types.SrcOther
       = (receiver, Some (ErrorString "incompatible type for FixedString")).
Proof.
  intros str receiver. split; [|reflexivity].
  eexists. split; [reflexivity|]. cbn [Types.Scan]. unfold Types.String_.
  unfold Types.trimZero. by rewrite Trim_idempotent.
Qed.
